(** * listen-email.py: wake-word triggered recorder with e-mail delivery

    A shallow embedding of [listen-email.py] and the properties of its
    capture loop, its WAV artifact and its delivery/retention policy.

    The script is one module: a helper [send_audio_email] and a
    [while True] loop over module-level variables ([recording],
    [audio_frames], [recording_start_time]).  The embedding keeps these
    three variables, the file store and a chronological trace of the
    effects the script performs in one state record, and writes the code in
    a small state-and-exception monad so that [try]/[except]/[finally]
    read as they do in the source.

    Everything the script obtains from outside (the frame, the detector's
    answer, the clock readings, whether an I/O call raises) is an
    input of the iteration, a [Tick].

    Conventions of the model:
    - clock readings are rationals, in seconds; the duration test is the
      comparison the script makes on their difference;
    - the file store is a finite map from paths to contents;
    - the exceptions the calls raise are subclasses of [Exception]; the
      [KeyboardInterrupt] that ends the script is not an input, a run is
      the loop over a finite prefix of its inputs;
    - [recorder.read()] and [porcupine.process(pcm)] return normally. *)

From Stdlib Require Import ZArith QArith Lia Ascii String.
From stdpp Require Import base strings list gmap.

Local Open Scope Z_scope.

(** ** Bytes, [struct.pack] and the WAVE container *)

(** A byte string is a list of byte values, each in [0, 256). *)
Abbreviation bytes := (list Z).

(** A frame as [PvRecorder.read] returns it: a list of sample values. *)
Abbreviation Frame := (list Z).

(** Exceptions the modelled calls raise.  All of them derive from Python's
    [Exception]. *)
Inductive exn :=
| FileNotFoundError
| PermissionError
| OSError
| struct_error
| wave_Error
| TypeError
| HeaderParseError
| ConnectionRefusedError
| SMTPAuthenticationError
| SMTPServerDisconnected
| SMTPException.

(** The code points of an ASCII literal, as [b'RIFF'] is four bytes. *)
Fixpoint bytes_of_string (s : string) : bytes :=
  match s with
  | EmptyString => []
  | String c r => Z.of_N (Ascii.N_of_ascii c) :: bytes_of_string r
  end.

(** [struct.pack('<H', x)] and [struct.pack('<L', x)]: little-endian,
    [struct.error] outside the unsigned range. *)
Definition le16 (x : Z) : bytes := [x mod 256; (x / 256) mod 256].

Definition le32 (x : Z) : bytes :=
  [x mod 256; (x / 256) mod 256; (x / 65536) mod 256; (x / 16777216) mod 256].

Definition pack_H (x : Z) : exn + bytes :=
  if (0 <=? x) && (x <? 65536) then inr (le16 x) else inl struct_error.

Definition pack_L (x : Z) : exn + bytes :=
  if (0 <=? x) && (x <? 4294967296) then inr (le32 x) else inl struct_error.

(** [struct.pack('h', x)]: a signed 16-bit sample in two's complement,
    low byte first; [struct.error] outside [-32768, 32767]. *)
Definition pack_h (x : Z) : exn + bytes :=
  if (-32768 <=? x) && (x <=? 32767) then inr (le16 (x mod 65536))
  else inl struct_error.

(** Sequencing of fallible pure computations. *)
Definition ebind {A B : Type} (m : exn + A) (f : A -> exn + B) : exn + B :=
  match m with
  | inl e => inl e
  | inr a => f a
  end.

(** [struct.pack('h' * len(frame), *frame)]. *)
Fixpoint pack_frame (frame : Frame) : exn + bytes :=
  match frame with
  | [] => inr []
  | x :: r =>
      ebind (pack_h x) (fun b => ebind (pack_frame r) (fun br => inr (b ++ br)))
  end.

(** [b''.join(struct.pack('h' * len(frame), *frame) for frame in audio_frames)]. *)
Fixpoint join_frames (audio_frames : list Frame) : exn + bytes :=
  match audio_frames with
  | [] => inr []
  | frame :: r =>
      ebind (pack_frame frame)
            (fun b => ebind (join_frames r) (fun br => inr (b ++ br)))
  end.

(** Modelled from the spec: the container encoder is Python's [wave]
    module, which is not part of the repository.  Section 6 of the spec fixes
    its output as the standard RIFF/WAVE chunk layout for PCM: the 12-byte
    RIFF header, the 16-byte [fmt ] chunk, then the [data] chunk.
    [setframerate] rejects a rate that is not positive; a field that does
    not fit its width is a [struct.error]. *)
Definition wave_file (nchannels sampwidth framerate : Z) (data : bytes)
  : exn + bytes :=
  if framerate <=? 0 then inl wave_Error else
  let datalength := Z.of_nat (length data) in
  ebind (pack_L (36 + datalength)) (fun riff_len =>
  ebind (pack_H nchannels) (fun nch =>
  ebind (pack_L framerate) (fun rate =>
  ebind (pack_L (nchannels * framerate * sampwidth)) (fun byte_rate =>
  ebind (pack_H (nchannels * sampwidth)) (fun block_align =>
  ebind (pack_H (sampwidth * 8)) (fun bits =>
  ebind (pack_L datalength) (fun data_len =>
  inr (bytes_of_string "RIFF" ++ riff_len ++
       bytes_of_string "WAVE" ++ bytes_of_string "fmt " ++
       le32 16 ++ le16 1 ++ nch ++ rate ++ byte_rate ++ block_align ++ bits ++
       bytes_of_string "data" ++ data_len ++ data)))))))).

(** What lines 142-146 put into the file: one channel, two bytes per
    sample, the detector's sample rate, the frames packed and joined. *)
Definition wav_of_frames (sample_rate : Z) (audio_frames : list Frame)
  : exn + bytes :=
  ebind (join_frames audio_frames) (wave_file 1 2 sample_rate).

(** What a reader of the container reports. *)
Record WaveInfo := {
  wi_nchannels : Z;
  wi_sampwidth : Z;        (* bytes per sample *)
  wi_framerate : Z;
  wi_samples : list Z
}.

Definition unle16 (b0 b1 : Z) : Z := b0 + 256 * b1.

Definition unle32 (b0 b1 b2 b3 : Z) : Z :=
  b0 + 256 * b1 + 65536 * b2 + 16777216 * b3.

(** [struct.unpack('<h', ...)]. *)
Definition unpack_h (b0 b1 : Z) : Z :=
  let u := unle16 b0 b1 in
  if u <? 32768 then u else u - 65536.

(** The 16-bit samples of a data chunk; a trailing odd byte is not a
    sample. *)
Fixpoint unpack_samples (data : bytes) : list Z :=
  match data with
  | b0 :: b1 :: r => unpack_h b0 b1 :: unpack_samples r
  | _ => []
  end.

(** [expect tag input]: the input behind [tag], or nothing when the input
    does not start with it. *)
Fixpoint expect (tag input : bytes) : option bytes :=
  match tag, input with
  | [], _ => Some input
  | t :: tr, b :: br => if t =? b then expect tr br else None
  | _ :: _, [] => None
  end.

Definition read16 (input : bytes) : option (Z * bytes) :=
  match input with
  | b0 :: b1 :: r => Some (unle16 b0 b1, r)
  | _ => None
  end.

Definition read32 (input : bytes) : option (Z * bytes) :=
  match input with
  | b0 :: b1 :: b2 :: b3 :: r => Some (unle32 b0 b1 b2 b3, r)
  | _ => None
  end.

(** Modelled from the spec: the container decoder of the round-trip
    property (section 8) is not part of the repository.  It reads the
    RIFF/WAVE PCM layout of section 6: it checks the chunk tags and the PCM
    format code, takes channel count, sample rate and bits per sample from
    the [fmt ] chunk, and decodes the [data] chunk's declared number of bytes
    as little-endian signed 16-bit samples. *)
Definition wave_read (file : bytes) : option WaveInfo :=
  r ← expect (bytes_of_string "RIFF") file;
  '(_, r) ← read32 r;
  r ← expect (bytes_of_string "WAVE") r;
  r ← expect (bytes_of_string "fmt ") r;
  '(fmt_len, r) ← read32 r;
  '(format_tag, r) ← read16 r;
  '(nchannels, r) ← read16 r;
  '(framerate, r) ← read32 r;
  '(_, r) ← read32 r;
  '(_, r) ← read16 r;
  '(bits, r) ← read16 r;
  r ← expect (bytes_of_string "data") r;
  '(datalength, r) ← read32 r;
  if (fmt_len =? 16) && (format_tag =? 1) && (bits =? 16)
     && (datalength <=? Z.of_nat (length r))
  then Some {| wi_nchannels := nchannels;
               wi_sampwidth := bits / 8;
               wi_framerate := framerate;
               wi_samples := unpack_samples (take (Z.to_nat datalength) r) |}
  else None.

(** ** Paths and timestamps *)

Definition is_sep (c : Ascii.ascii) : bool := Ascii.eqb c "/"%char.

Fixpoint has_sep (s : string) : bool :=
  match s with
  | EmptyString => false
  | String c r => is_sep c || has_sep r
  end.

Fixpoint ends_with_sep (s : string) : bool :=
  match s with
  | EmptyString => false
  | String c EmptyString => is_sep c
  | String _ r => ends_with_sep r
  end.

(** [os.path.join(a, b)] for a [b] that does not start with a separator,
    as the file name [recording_....wav] never does. *)
Definition path_join (a b : string) : string :=
  match a with
  | EmptyString => b
  | _ => if ends_with_sep a then a +:+ b else a +:+ "/" +:+ b
  end.

(** [os.path.basename]: what follows the last separator. *)
Fixpoint basename (p : string) : string :=
  match p with
  | EmptyString => EmptyString
  | String c r => if has_sep p then basename r else p
  end.

(** What [datetime.datetime.now()] returns. *)
Record DateTime := {
  year : N; month : N; day : N;
  hour : N; minute : N; second : N;
  microsecond : N
}.

Definition digit (n : N) : Ascii.ascii := Ascii.ascii_of_N (48 + n mod 10).

Definition dec2 (n : N) : string :=
  String (digit (n / 10)) (String (digit n) EmptyString).

Definition dec4 (n : N) : string :=
  String (digit (n / 1000)) (String (digit (n / 100)) (dec2 n)).

(** [strftime("%Y%m%d_%H%M%S")]: the microseconds do not appear. *)
Definition strftime (d : DateTime) : string :=
  dec4 (year d) +:+ dec2 (month d) +:+ dec2 (day d) +:+ "_" +:+
  dec2 (hour d) +:+ dec2 (minute d) +:+ dec2 (second d).

(** ** Configuration, messages, effects *)

(** The module-level constants read from the environment, and the two
    attributes of the detector the loop uses. *)
Record Config := {
  TEMP_AUDIO_DIR : string;
  RECORDING_DURATION_SECONDS : Z;
  SENDER_EMAIL : string;
  SENDER_APP_PASSWORD : string;
  RECEIVER_EMAIL : string;
  SMTP_SERVER : string;
  SMTP_PORT : Z;
  sample_rate : Z                  (* porcupine.sample_rate *)
}.

(** The e-mail built by lines 34-53. *)
Record Message := {
  msg_from : string;
  msg_to : string;
  msg_subject : string;
  msg_body : string;
  msg_attachment_name : string;
  msg_attachment : bytes
}.

(** The lines the script prints, by source line. *)
Inductive Msg :=
| MsgAttachmentNotFound (path : string)        (* line 55 *)
| MsgAttachmentError (e : exn)                 (* line 58 *)
| MsgEmailSent (name to : string)              (* line 68 *)
| MsgAuthenticationError                       (* lines 71-72 *)
| MsgServerDisconnected                        (* line 75 *)
| MsgSendError (e : exn)                       (* line 78 *)
| MsgDetected                                  (* line 120 *)
| MsgDurationReached                           (* line 132 *)
| MsgSaved (path : string)                     (* line 147 *)
| MsgAttempting                                (* line 150 *)
| MsgDeleted (path : string)                   (* line 156 *)
| MsgNotDeleted (path : string)                (* line 158 *)
| MsgSaveOrSendError (e : exn)                 (* line 161 *)
| MsgNoAudio                                   (* line 165 *)
| MsgListening.                                (* line 166 *)

(** The calls that reach outside the process, in the order made. *)
Inductive Event :=
| Print (m : Msg)
| WaveWrite (path : string) (rate : Z) (frames : list Frame)
| FileOpen (path : string)
| SmtpConnect (host : string) (port : Z)
| SmtpStartTls
| SmtpLogin (user password : string)
| SmtpSendmail (from to : string) (m : Message)
| SmtpQuit
| Remove (path : string).

(** Whether an event contacts the mail relay. *)
Definition is_network (ev : Event) : bool :=
  match ev with
  | SmtpConnect _ _ | SmtpStartTls | SmtpLogin _ _ | SmtpSendmail _ _ _
  | SmtpQuit => true
  | _ => false
  end.

(** The outcome of one delivery, by the [return] statement reached in
    [send_audio_email]: line 69 is [Success]; lines 56 and 59 are
    [AttachmentFailure]; line 73 is [AuthFailure]; lines 76 and 79 are
    [TransportFailure]. *)
Inductive DeliveryAttempt :=
| Success
| AuthFailure
| TransportFailure
| AttachmentFailure.

(** The boolean the function returns at that statement. *)
Definition returned (a : DeliveryAttempt) : bool :=
  match a with
  | Success => true
  | _ => false
  end.

(** What each SMTP call does when made: [None] returns normally,
    [Some e] raises [e]. *)
Record Smtp := {
  smtp_connect : option exn;
  smtp_starttls : option exn;
  smtp_login : option exn;
  smtp_sendmail : option exn;
  smtp_quit : option exn
}.

(** What the world does if a session completes on this iteration:
    the wall clock for the file name, whether writing the WAVE file raises
    (and what a failed write leaves at the path, if anything), whether the
    file can be read back, the relay's behaviour, whether
    [msg.as_string()] on line 65 raises (it does on a header it rejects),
    and whether [os.remove] on line 155 raises on the file it is given. *)
Record Env := {
  env_now : DateTime;
  env_write_raises : bool;
  env_write_residue : option bytes;
  env_readable : bool;
  env_smtp : Smtp;
  env_as_string_raises : option exn;
  env_remove_raises : option exn
}.

(** One iteration's inputs: the frame from [recorder.read()], the result
    of [porcupine.process(pcm)], the reading [time.time()] gives on line 123
    and the one it gives on line 128 (seconds), and the environment. *)
Record Tick := {
  tk_pcm : Frame;
  tk_keyword_index : Z;
  tk_trigger_time : Q;
  tk_check_time : Q;
  tk_env : Env
}.

(** The module-level variables of the loop, the file store and the trace. *)
Record St := {
  recording : bool;
  audio_frames : list Frame;
  recording_start_time : option Q;
  fs : gmap string (list Z);
  trace : list Event
}.

(** Lines 107-109, on a given file store. *)
Definition init (files : gmap string (list Z)) : St :=
  {| recording := false; audio_frames := []; recording_start_time := None;
     fs := files; trace := [] |}.

(** ** The state-and-exception monad *)

Inductive Res (A : Type) :=
| Ok (a : A) (s : St)
| Raised (e : exn) (s : St).
Arguments Ok {A} a s.
Arguments Raised {A} e s.

Definition M (A : Type) := St -> Res A.

Definition ret {A : Type} (a : A) : M A := fun s => Ok a s.

Definition bind {A B : Type} (m : M A) (f : A -> M B) : M B :=
  fun s => match m s with
           | Ok a s' => f a s'
           | Raised e s' => Raised e s'
           end.

Definition raise {A : Type} (e : exn) : M A := fun s => Raised e s.

(** [try: m  except ...: h e]; the handler decides by the exception. *)
Definition try_except {A : Type} (m : M A) (h : exn -> M A) : M A :=
  fun s => match m s with
           | Ok a s' => Ok a s'
           | Raised e s' => h e s'
           end.

(** [try: m  finally: f]; [f] runs either way, and an exception of [m]
    goes on after it. *)
Definition try_finally {A : Type} (m : M A) (f : M unit) : M A :=
  fun s => match m s with
           | Ok a s' => bind f (fun _ => ret a) s'
           | Raised e s' => bind f (fun _ => raise e) s'
           end.

Declare Scope py_scope.
Delimit Scope py_scope with py.
Notation "x <- m ; k" := (bind m (fun x => k))
  (at level 100, m at next level, right associativity) : py_scope.
Notation "m ;; k" := (bind m (fun _ => k))
  (at level 100, right associativity) : py_scope.
Local Open Scope py_scope.

Definition get {A : Type} (proj : St -> A) : M A := fun s => Ok (proj s) s.

Definition set_recording (b : bool) : M unit :=
  fun s => Ok tt {| recording := b; audio_frames := audio_frames s;
                    recording_start_time := recording_start_time s;
                    fs := fs s; trace := trace s |}.

Definition set_audio_frames (l : list Frame) : M unit :=
  fun s => Ok tt {| recording := recording s; audio_frames := l;
                    recording_start_time := recording_start_time s;
                    fs := fs s; trace := trace s |}.

Definition set_recording_start_time (t : option Q) : M unit :=
  fun s => Ok tt {| recording := recording s; audio_frames := audio_frames s;
                    recording_start_time := t;
                    fs := fs s; trace := trace s |}.

Definition set_fs (files : gmap string (list Z)) : M unit :=
  fun s => Ok tt {| recording := recording s; audio_frames := audio_frames s;
                    recording_start_time := recording_start_time s;
                    fs := files; trace := trace s |}.

(** The state with further effects recorded at the end of the trace. *)
Definition log (s : St) (evs : list Event) : St :=
  {| recording := recording s; audio_frames := audio_frames s;
     recording_start_time := recording_start_time s;
     fs := fs s; trace := trace s ++ evs |}.

(** Record one effect. *)
Definition emit (ev : Event) : M unit := fun s => Ok tt (log s [ev]).

Definition print (m : Msg) : M unit := emit (Print m).

(** A call that either returns or raises, as the environment says. *)
Definition may_raise (o : option exn) : M unit :=
  match o with
  | None => ret tt
  | Some e => raise e
  end.

(** ** The program *)

Section Program.

Variable cfg : Config.

(** [open(file_path, "rb")] followed by [attachment.read()]: a missing
    file is a [FileNotFoundError], one that cannot be read a
    [PermissionError]. *)
Definition open_read (file_path : string) (env : Env) : M bytes :=
  emit (FileOpen file_path);;
  files <- get fs;
  match files !! file_path with
  | None => raise FileNotFoundError
  | Some content =>
      if env_readable env then ret content else raise PermissionError
  end.

(** Lines 33-79, returning the outcome named after the [return] statement
    reached. *)
Definition send_attempt (file_path sender_email sender_password
                         receiver_email : string) (env : Env)
  : M DeliveryAttempt :=
  let subject :=
    "Audio Recording from Voice Trigger - " +:+ basename file_path in
  let body := "Please find the attached audio recording." in
  (* lines 47-59 *)
  attached <-
    try_except
      (payload <- open_read file_path env;
       ret (inr payload))
      (fun e =>
         match e with
         | FileNotFoundError =>
             print (MsgAttachmentNotFound file_path);;
             ret (inl AttachmentFailure)
         | _ =>
             print (MsgAttachmentError e);;
             ret (inl AttachmentFailure)
         end);
  match attached with
  | inl outcome => ret outcome
  | inr payload =>
      let msg := {| msg_from := sender_email; msg_to := receiver_email;
                    msg_subject := subject; msg_body := body;
                    msg_attachment_name := basename file_path;
                    msg_attachment := payload |} in
      (* lines 61-79 *)
      try_except
        (emit (SmtpConnect (SMTP_SERVER cfg) (SMTP_PORT cfg));;
         may_raise (smtp_connect (env_smtp env));;
         emit SmtpStartTls;;
         may_raise (smtp_starttls (env_smtp env));;
         emit (SmtpLogin sender_email sender_password);;
         may_raise (smtp_login (env_smtp env));;
         may_raise (env_as_string_raises env);;
         emit (SmtpSendmail sender_email receiver_email msg);;
         may_raise (smtp_sendmail (env_smtp env));;
         emit SmtpQuit;;
         may_raise (smtp_quit (env_smtp env));;
         print (MsgEmailSent (basename file_path) receiver_email);;
         ret Success)
        (fun e =>
           match e with
           | SMTPAuthenticationError =>
               print MsgAuthenticationError;;
               ret AuthFailure
           | SMTPServerDisconnected =>
               print MsgServerDisconnected;;
               ret TransportFailure
           | _ =>
               print (MsgSendError e);;
               ret TransportFailure
           end)
  end.

(** [send_audio_email] as the script has it: [True] or [False]. *)
Definition send_audio_email (file_path sender_email sender_password
                             receiver_email : string) (env : Env) : M bool :=
  outcome <- send_attempt file_path sender_email sender_password
                          receiver_email env;
  ret (returned outcome).

(** What a write that raised leaves at the path. *)
Definition leave_residue (path : string) (env : Env) : M unit :=
  match env_write_residue env with
  | None => ret tt
  | Some partial => files <- get fs; set_fs (<[path := partial]> files)
  end.

(** What the [with wave.open(temp_filename, 'wb')] block of lines 142-146
    comes to: the bytes of the file, or the exception that leaves the
    block. *)
Definition write_result (frames : list Frame) (env : Env) : exn + bytes :=
  if env_write_raises env then inl OSError
  else wav_of_frames (sample_rate cfg) frames.

(** Lines 142-146.  Mode ['wb'] creates the file or replaces the one of
    that name. *)
Definition wave_write (temp_filename : string) (frames : list Frame)
                      (env : Env) : M unit :=
  emit (WaveWrite temp_filename (sample_rate cfg) frames);;
  match write_result frames env with
  | inl e => leave_residue temp_filename env;; raise e
  | inr content =>
      files <- get fs; set_fs (<[temp_filename := content]> files)
  end.

(** [os.remove(path)]: a missing file is a [FileNotFoundError]; on a
    file that is there the call removes it or raises, as the environment
    says, and leaves it when it raises. *)
Definition os_remove (path : string) (env : Env) : M unit :=
  emit (Remove path);;
  files <- get fs;
  match files !! path with
  | None => raise FileNotFoundError
  | Some _ =>
      match env_remove_raises env with
      | Some e => raise e
      | None => set_fs (delete path files)
      end
  end.

(** The artifact's path, lines 137-138. *)
Definition temp_filename_at (now : DateTime) : string :=
  path_join (TEMP_AUDIO_DIR cfg) ("recording_" +:+ strftime now +:+ ".wav").

(** Lines 151-158: one delivery attempt, then the disposal of the
    artifact. *)
Definition deliver_and_dispose (temp_filename : string) (env : Env) : M unit :=
  email_sent <- send_audio_email temp_filename (SENDER_EMAIL cfg)
                  (SENDER_APP_PASSWORD cfg) (RECEIVER_EMAIL cfg) env;
  if email_sent : bool then
    os_remove temp_filename env;;
    print (MsgDeleted temp_filename)
  else
    print (MsgNotDeleted temp_filename).

(** Lines 136-165. *)
Definition complete_session (env : Env) : M unit :=
  frames <- get audio_frames;
  match frames with
  | _ :: _ =>
      let temp_filename := temp_filename_at (env_now env) in
      try_finally
        (try_except
           (wave_write temp_filename frames env;;
            print (MsgSaved temp_filename);;
            print MsgAttempting;;
            deliver_and_dispose temp_filename env)
           (fun e => print (MsgSaveOrSendError e)))
        (set_audio_frames [])
  | [] => print MsgNoAudio
  end.

(** [elapsed_time >= RECORDING_DURATION_SECONDS]. *)
Definition duration_reached (elapsed_time : Q) : bool :=
  Qle_bool (inject_Z (RECORDING_DURATION_SECONDS cfg)) elapsed_time.

(** Lines 118-123. *)
Definition on_trigger (tk : Tick) : M unit :=
  if tk_keyword_index tk =? 0 then
    is_recording <- get recording;
    if negb is_recording then
      print MsgDetected;;
      set_recording true;;
      set_audio_frames [];;
      set_recording_start_time (Some (tk_trigger_time tk))
    else ret tt
  else ret tt.

(** Lines 125-166.  Subtracting from a start time that is [None] is a
    [TypeError]. *)
Definition while_recording (tk : Tick) : M unit :=
  is_recording <- get recording;
  if is_recording : bool then
    frames <- get audio_frames;
    set_audio_frames (frames ++ [tk_pcm tk]);;
    let current_time := tk_check_time tk in
    start <- get recording_start_time;
    elapsed_time <- match start with
                    | Some t0 => ret (current_time - t0)%Q
                    | None => raise TypeError
                    end;
    if duration_reached elapsed_time then
      print MsgDurationReached;;
      set_recording false;;
      set_recording_start_time None;;
      complete_session (tk_env tk);;
      print MsgListening
    else ret tt
  else ret tt.

(** One pass through the body of [while True], lines 115-168.  The
    [time.sleep(0.01)] that ends it changes nothing the model observes. *)
Definition loop_body (tk : Tick) : M unit :=
  on_trigger tk;;
  while_recording tk.

(** The loop over the iterations that the given inputs drive; an exception
    leaving the body ends it. *)
Fixpoint run (ticks : list Tick) : M unit :=
  match ticks with
  | [] => ret tt
  | tk :: rest => loop_body tk;; run rest
  end.

(** The buffers handed to the writer, oldest first. *)
Fixpoint emitted (tr : list Event) : list (list Frame) :=
  match tr with
  | [] => []
  | WaveWrite _ _ frames :: r => frames :: emitted r
  | _ :: r => emitted r
  end.

(** The events of a trace that contact the relay. *)
Definition network_events (tr : list Event) : list Event :=
  filter (fun ev => is_network ev = true) tr.

End Program.

(** ** Vocabulary of the properties *)

(** The invariant of the loop variables: while recording, the start time
    is set. *)
Definition wf (s : St) : Prop :=
  recording s = true -> is_Some (recording_start_time s).

(** The state on leaving lines 119-123 when they run. *)
Definition armed (tk : Tick) (s : St) : St :=
  {| recording := true; audio_frames := [];
     recording_start_time := Some (tk_trigger_time tk);
     fs := fs s; trace := trace s ++ [Print MsgDetected] |}.

(** The state with one more frame in the buffer. *)
Definition buffered (frames : list Frame) (s : St) : St :=
  {| recording := recording s; audio_frames := audio_frames s ++ frames;
     recording_start_time := recording_start_time s;
     fs := fs s; trace := trace s |}.

(** The same iteration with another answer from the detector. *)
Definition with_keyword_index (k : Z) (tk : Tick) : Tick :=
  {| tk_pcm := tk_pcm tk; tk_keyword_index := k;
     tk_trigger_time := tk_trigger_time tk;
     tk_check_time := tk_check_time tk; tk_env := tk_env tk |}.

(** Events other than a hand-over to the writer and the line printed for
    an empty buffer. *)
Definition quiet (ev : Event) : bool :=
  match ev with
  | WaveWrite _ _ _ | Print MsgNoAudio => false
  | _ => true
  end.

(** A sample that fits sixteen bits, signed. *)
Definition int16 (x : Z) : Prop := -32768 <= x <= 32767.

(** The state on leaving lines 154-161, given the outcome of the delivery
    and what [os.remove] does: a removal that raises is caught on line 160
    and leaves the file. *)
Definition disposed (path : string) (env : Env) (out : DeliveryAttempt)
    (s : St) : St :=
  match out with
  | Success =>
      match env_remove_raises env with
      | None =>
          {| recording := recording s; audio_frames := audio_frames s;
             recording_start_time := recording_start_time s;
             fs := delete path (fs s);
             trace := trace s ++ [Remove path; Print (MsgDeleted path)] |}
      | Some e => log s [Remove path; Print (MsgSaveOrSendError e)]
      end
  | _ => log s [Print (MsgNotDeleted path)]
  end.

(** The state on reaching line 151 when the write succeeded. *)
Definition written (cfg : Config) (env : Env) (content : bytes) (s : St) : St :=
  let path := temp_filename_at cfg (env_now env) in
  {| recording := recording s; audio_frames := audio_frames s;
     recording_start_time := recording_start_time s;
     fs := <[path := content]> (fs s);
     trace := trace s ++ [WaveWrite path (sample_rate cfg) (audio_frames s);
                          Print (MsgSaved path); Print MsgAttempting] |}.

(** The state after the [finally] clause, line 163. *)
Definition cleared (s : St) : St :=
  {| recording := recording s; audio_frames := [];
     recording_start_time := recording_start_time s;
     fs := fs s; trace := trace s |}.

(** The state on leaving lines 136-165 when the write raised [e]. *)
Definition write_failed (cfg : Config) (env : Env) (e : exn) (s : St) : St :=
  let path := temp_filename_at cfg (env_now env) in
  {| recording := recording s; audio_frames := [];
     recording_start_time := recording_start_time s;
     fs := match env_write_residue env with
           | Some partial => <[path := partial]> (fs s)
           | None => fs s
           end;
     trace := trace s ++ [WaveWrite path (sample_rate cfg) (audio_frames s);
                          Print (MsgSaveOrSendError e)] |}.

(** The state on reaching line 136: the frame appended, the window closed. *)
Definition closing (tk : Tick) (s : St) : St :=
  {| recording := false; audio_frames := audio_frames s ++ [tk_pcm tk];
     recording_start_time := None; fs := fs s;
     trace := trace s ++ [Print MsgDurationReached] |}.

(** ** Concrete inputs *)

Module Sample.

Definition cfg : Config :=
  {| TEMP_AUDIO_DIR := "temp_recordings"; RECORDING_DURATION_SECONDS := 15;
     SENDER_EMAIL := "sender@example.org"; SENDER_APP_PASSWORD := "app-password";
     RECEIVER_EMAIL := "receiver@example.org";
     SMTP_SERVER := "smtp.example.org"; SMTP_PORT := 587;
     sample_rate := 16000 |}.

(** The same with [RECORDING_DURATION_SECONDS=0] in the environment. *)
Definition cfg_zero : Config :=
  {| TEMP_AUDIO_DIR := "temp_recordings"; RECORDING_DURATION_SECONDS := 0;
     SENDER_EMAIL := "sender@example.org"; SENDER_APP_PASSWORD := "app-password";
     RECEIVER_EMAIL := "receiver@example.org";
     SMTP_SERVER := "smtp.example.org"; SMTP_PORT := 587;
     sample_rate := 16000 |}.

Definition relay_up : Smtp :=
  {| smtp_connect := None; smtp_starttls := None; smtp_login := None;
     smtp_sendmail := None; smtp_quit := None |}.

Definition relay_down : Smtp :=
  {| smtp_connect := Some ConnectionRefusedError; smtp_starttls := None;
     smtp_login := None; smtp_sendmail := None; smtp_quit := None |}.

(** 2 January 2024, 03:04:05 and some microseconds. *)
Definition at_second (us : N) : DateTime :=
  {| year := 2024; month := 1; day := 2; hour := 3; minute := 4; second := 5;
     microsecond := us |}.

Definition env_ok (relay : Smtp) (us : N) : Env :=
  {| env_now := at_second us; env_write_raises := false;
     env_write_residue := None; env_readable := true; env_smtp := relay;
     env_as_string_raises := None; env_remove_raises := None |}.


(** The relay is up and the message goes out, but the file cannot be
    removed. *)
Definition env_cannot_remove : Env :=
  {| env_now := at_second 0; env_write_raises := false;
     env_write_residue := None; env_readable := true; env_smtp := relay_up;
     env_as_string_raises := None;
     env_remove_raises := Some PermissionError |}.

Definition tick (pcm : Frame) (k : Z) (now : Q) (env : Env) : Tick :=
  {| tk_pcm := pcm; tk_keyword_index := k; tk_trigger_time := now;
     tk_check_time := now; tk_env := env |}.

Definition path : string := "temp_recordings/recording_20240102_030405.wav".

(** A state in the middle of a window opened at time 0. *)
Definition mid_window : St :=
  {| recording := true; audio_frames := [[1; 2]];
     recording_start_time := Some 0%Q; fs := ∅; trace := [Print MsgDetected] |}.

(** Frames around one window of fifteen seconds: one before the match, the
    match at time 1, a frame at time 5, and one at time 16 that carries a
    second match. *)
Definition env : Env := env_ok relay_up 0.
Definition pre : list Tick := [tick [0; 0] (-1) 0%Q env].
Definition win : list Tick := [tick [1; 1] 0 1%Q env; tick [2; 2] (-1) 5%Q env].
Definition last : Tick := tick [3; 3] 0 16%Q env.

(** The container of the one frame [[1; 2]] at 16 kHz. *)
Definition content : bytes :=
  Eval vm_compute in
    match wav_of_frames 16000 [[1; 2]] with
    | inr file => file
    | inl _ => []
    end.

(** Two matches within the same second, the relay being down. *)
Definition first_session : Tick := tick [1] 0 0%Q (env_ok relay_down 100).
Definition second_session : Tick := tick [2] 0 0%Q (env_ok relay_down 900).


(** The state a write of [[1; 2]] leaves from the initial one. *)
Definition after_write : St :=
  {| recording := false; audio_frames := [];
     recording_start_time := None;
     fs := <[path := content]> ∅;
     trace := [WaveWrite path 16000 [[1; 2]]] |}.

End Sample.

(** ** Further vocabulary *)



(** Events that lines 147-161 and [send_audio_email] produce after the
    hand-over to the writer, and the listening line: everything but a
    hand-over and the three lines of lines 120, 132 and 165. *)
Definition tail_event (ev : Event) : bool :=
  match ev with
  | WaveWrite _ _ _ => false
  | Print MsgDetected | Print MsgDurationReached | Print MsgNoAudio => false
  | _ => true
  end.

(** Whether an event opens a connection to the relay (line 62). *)
Definition is_connect (ev : Event) : bool :=
  match ev with
  | SmtpConnect _ _ => true
  | _ => false
  end.

(** Whether an event is the detection line of line 120. *)
Definition is_detection (ev : Event) : bool :=
  match ev with
  | Print MsgDetected => true
  | _ => false
  end.

(** How many connections to the relay a trace opens. *)
Definition count_connects (t : list Event) : nat :=
  length (filter (fun ev => is_connect ev = true) t).

(** How many times a trace prints the detection line. *)
Definition count_detected (t : list Event) : nat :=
  length (filter (fun ev => is_detection ev = true) t).

(** The relation between the loop variables that every iteration keeps:
    a window that is open has a start time and at least one frame; when no
    window is open the buffer is empty and no start time is set. *)
Definition consistent (s : St) : Prop :=
  if recording s
  then audio_frames s <> [] /\ is_Some (recording_start_time s)
  else audio_frames s = [] /\ recording_start_time s = None.

(** Every detection printed has led to one hand-over to the writer, but
    for the window that is open. *)
Definition balanced (s : St) : Prop :=
  count_detected (trace s)
  = (length (emitted (trace s)) + if recording s then 1 else 0)%nat.

(** A date and time whose fields have the widths [strftime] prints them
    in: a four-digit year, two digits for the rest. *)
Definition printable (d : DateTime) : Prop :=
  (1000 <= year d < 10000 /\ month d < 100 /\ day d < 100 /\
   hour d < 100 /\ minute d < 100 /\ second d < 100)%N.

(** Two dates and times in the same second. *)
Definition same_second (d d' : DateTime) : Prop :=
  year d = year d' /\ month d = month d' /\ day d = day d' /\
  hour d = hour d' /\ minute d = minute d' /\ second d = second d'.

(** ** Start-up and shutdown *)

(** What [pvporcupine.create] does (lines 85-96): the two [except] clauses
    differ in the line printed. *)
Inductive CreateOutcome :=
| Created
| RaisesPorcupineError
| RaisesOther.

(** What start-up meets: the detector's constructor, the recorder's
    constructor and [recorder.start()] ([None] returns, [Some e] raises). *)
Record Startup := {
  start_porcupine : CreateOutcome;
  start_recorder : option exn;
  start_recording : option exn
}.

(** The lines printed outside the loop. *)
Inductive Line :=
| LineInitializing               (* line 82 *)
| LinePorcupineFailed            (* lines 91-92 *)
| LinePorcupineUnexpected        (* line 95 *)
| LineRecorderFailed             (* lines 103-104 *)
| LineListening                  (* line 111 *)
| LineStopping                   (* line 171 *)
| LineCleanUp.                   (* line 178 *)

(** What the script does from line 82 on, in order; the effects of the
    loop are one step. *)
Inductive Step :=
| Say (line : Line)
| PorcupineCreate
| RecorderCreate
| RecorderStart
| Loop (events : list Event)
| RecorderStop
| RecorderDelete
| PorcupineDelete
| Exit                           (* [exit()] *)
| Uncaught (e : exn).

(** The [finally] clause of lines 172-178. *)
Definition clean_up : list Step :=
  [RecorderStop; RecorderDelete; PorcupineDelete; Say LineCleanUp].

(** Lines 82-178 on the given file store: start-up, the loop over the
    given iterations, then a [KeyboardInterrupt] raised while
    [recorder.read()] waits for the next frame.  The result is what was
    done and the file store left behind. *)
Definition script (cfg : Config) (st : Startup)
    (files : gmap string (list Z)) (ticks : list Tick)
  : list Step * gmap string (list Z) :=
  match start_porcupine st with
  | RaisesPorcupineError =>
      ([Say LineInitializing; PorcupineCreate; Say LinePorcupineFailed; Exit],
       files)
  | RaisesOther =>
      ([Say LineInitializing; PorcupineCreate; Say LinePorcupineUnexpected;
        Exit], files)
  | Created =>
      match start_recorder st with
      | Some _ =>
          ([Say LineInitializing; PorcupineCreate; RecorderCreate;
            Say LineRecorderFailed; Exit], files)
      | None =>
          match start_recording st with
          | Some _ =>
              ([Say LineInitializing; PorcupineCreate; RecorderCreate;
                RecorderStart; Say LineRecorderFailed; Exit], files)
          | None =>
              match run cfg ticks (init files) with
              | Ok _ s =>
                  ([Say LineInitializing; PorcupineCreate; RecorderCreate;
                    RecorderStart; Say LineListening; Loop (trace s);
                    Say LineStopping] ++ clean_up, fs s)
              | Raised e s =>
                  ([Say LineInitializing; PorcupineCreate; RecorderCreate;
                    RecorderStart; Say LineListening; Loop (trace s)]
                   ++ clean_up ++ [Uncaught e], fs s)
              end
          end
      end
  end.

(** ** Further concrete inputs *)

Module Scenario.

(** A relay that rejects the credentials. *)
Definition relay_rejects : Smtp :=
  {| smtp_connect := None; smtp_starttls := None;
     smtp_login := Some SMTPAuthenticationError;
     smtp_sendmail := None; smtp_quit := None |}.

(** A relay that takes the message and drops the connection on [QUIT]. *)
Definition relay_drops_on_quit : Smtp :=
  {| smtp_connect := None; smtp_starttls := None; smtp_login := None;
     smtp_sendmail := None; smtp_quit := Some SMTPServerDisconnected |}.

(** The initial state on a store that holds one artifact. *)
Definition stored : St := init {[ Sample.path := Sample.content ]}.

(** Two frames of an open window, the second with a match. *)
Definition inside : list Tick :=
  [Sample.tick [5; 5] (-1) 1%Q Sample.env; Sample.tick [6; 6] 0 2%Q Sample.env].

Definition all_up : Startup :=
  {| start_porcupine := Created; start_recorder := None;
     start_recording := None |}.

Definition no_microphone : Startup :=
  {| start_porcupine := Created; start_recorder := Some OSError;
     start_recording := None |}.

End Scenario.

(** * Properties *)

(** ** The container round trip *)

Lemma ebind_inr {A B : Type} (m : exn + A) (f : A -> exn + B) (b : B) :
  ebind m f = inr b -> exists a, m = inr a /\ f a = inr b.
Proof. destruct m as [e|a]; simpl; [discriminate | eauto]. Qed.

Lemma inr_eq_inv {A B : Type} (x y : B) : @inr A B x = inr y -> x = y.
Proof. congruence. Qed.

Lemma unle16_le16 (x : Z) :
  0 <= x < 65536 -> unle16 (x mod 256) ((x / 256) mod 256) = x.
Proof. intros Hx. unfold unle16. Z.div_mod_to_equations. lia. Qed.

Lemma unle32_le32 (x : Z) :
  0 <= x < 4294967296 ->
  unle32 (x mod 256) ((x / 256) mod 256) ((x / 65536) mod 256)
         ((x / 16777216) mod 256) = x.
Proof. intros Hx. unfold unle32. Z.div_mod_to_equations. lia. Qed.

Lemma pack_H_inr (x : Z) (b : bytes) :
  pack_H x = inr b -> 0 <= x < 65536 /\ b = le16 x.
Proof.
  unfold pack_H. destruct (0 <=? x) eqn:H0, (x <? 65536) eqn:H1; simpl;
    intros [= <-]; split; [lia | reflexivity].
Qed.

Lemma pack_L_inr (x : Z) (b : bytes) :
  pack_L x = inr b -> 0 <= x < 4294967296 /\ b = le32 x.
Proof.
  unfold pack_L. destruct (0 <=? x) eqn:H0, (x <? 4294967296) eqn:H1; simpl;
    intros [= <-]; split; [lia | reflexivity].
Qed.

Lemma pack_H_fits (x : Z) : 0 <= x < 65536 -> pack_H x = inr (le16 x).
Proof.
  intros Hx. unfold pack_H.
  destruct (0 <=? x) eqn:H0, (x <? 65536) eqn:H1; simpl; try reflexivity; lia.
Qed.

Lemma pack_L_fits (x : Z) : 0 <= x < 4294967296 -> pack_L x = inr (le32 x).
Proof.
  intros Hx. unfold pack_L.
  destruct (0 <=? x) eqn:H0, (x <? 4294967296) eqn:H1; simpl;
    try reflexivity; lia.
Qed.

(** A packed sample reads back as itself. *)
Lemma unpack_pack_h (x : Z) (b rest : bytes) :
  pack_h x = inr b -> unpack_samples (b ++ rest) = x :: unpack_samples rest.
Proof.
  unfold pack_h.
  destruct (-32768 <=? x) eqn:Hlo, (x <=? 32767) eqn:Hhi; simpl;
    try discriminate.
  intros [= <-]. cbn [le16 app unpack_samples]. f_equal.
  unfold unpack_h. rewrite unle16_le16 by (Z.div_mod_to_equations; lia).
  destruct (x mod 65536 <? 32768) eqn:Hs; Z.div_mod_to_equations; lia.
Qed.

Lemma unpack_pack_frame (frame : Frame) (b rest : bytes) :
  pack_frame frame = inr b ->
  unpack_samples (b ++ rest) = frame ++ unpack_samples rest.
Proof.
  revert b. induction frame as [|x frame IH]; intros b; simpl.
  - intros [= <-]. reflexivity.
  - intros H. apply ebind_inr in H as (bx & Hx & H).
    apply ebind_inr in H as (br & Hr & [= <-]).
    rewrite <- app_assoc, (unpack_pack_h _ _ _ Hx), (IH _ Hr). reflexivity.
Qed.

(** The joined frames read back as the samples of all frames, in order. *)
Lemma unpack_join_frames (audio_frames : list Frame) (b rest : bytes) :
  join_frames audio_frames = inr b ->
  unpack_samples (b ++ rest) = concat audio_frames ++ unpack_samples rest.
Proof.
  revert b. induction audio_frames as [|frame frames IH]; intros b; simpl.
  - intros [= <-]. reflexivity.
  - intros H. apply ebind_inr in H as (bf & Hf & H).
    apply ebind_inr in H as (br & Hr & [= <-]).
    rewrite <- !app_assoc, (unpack_pack_frame _ _ _ Hf), (IH _ Hr).
    reflexivity.
Qed.

Lemma expect_app (tag rest : bytes) : expect tag (tag ++ rest) = Some rest.
Proof.
  induction tag as [|t tag IH]; simpl; [reflexivity|].
  rewrite Z.eqb_refl. exact IH.
Qed.

Lemma read16_le16 (x : Z) (rest : bytes) :
  0 <= x < 65536 -> read16 (le16 x ++ rest) = Some (x, rest).
Proof.
  intros Hx. cbn [le16 app read16]. rewrite unle16_le16 by exact Hx.
  reflexivity.
Qed.

Lemma read32_le32 (x : Z) (rest : bytes) :
  0 <= x < 4294967296 -> read32 (le32 x ++ rest) = Some (x, rest).
Proof.
  intros Hx. cbn [le32 app read32]. rewrite unle32_le32 by exact Hx.
  reflexivity.
Qed.

(** Reading a file of two-byte samples gives back its parameters and the
    samples of its data. *)
Lemma wave_read_wave_file (nchannels framerate : Z) (data file : bytes) :
  wave_file nchannels 2 framerate data = inr file ->
  wave_read file =
    Some {| wi_nchannels := nchannels; wi_sampwidth := 2;
            wi_framerate := framerate; wi_samples := unpack_samples data |}.
Proof.
  unfold wave_file. destruct (framerate <=? 0) eqn:Hrate; [discriminate|].
  intros H.
  apply ebind_inr in H as (riff_len & H1 & H). apply pack_L_inr in H1 as [R1 ->].
  apply ebind_inr in H as (nch & H2 & H). apply pack_H_inr in H2 as [R2 ->].
  apply ebind_inr in H as (rate & H3 & H). apply pack_L_inr in H3 as [R3 ->].
  apply ebind_inr in H as (brate & H4 & H). apply pack_L_inr in H4 as [R4 ->].
  apply ebind_inr in H as (balign & H5 & H). apply pack_H_inr in H5 as [R5 ->].
  apply ebind_inr in H as (bits & H6 & H). apply pack_H_inr in H6 as [R6 ->].
  apply ebind_inr in H as (dlen & H7 & H). apply pack_L_inr in H7 as [R7 ->].
  apply inr_eq_inv in H. subst file.
  unfold wave_read.
  rewrite expect_app. cbn [mbind option_bind].
  rewrite read32_le32 by exact R1. cbn [mbind option_bind].
  rewrite expect_app. cbn [mbind option_bind].
  rewrite expect_app. cbn [mbind option_bind].
  rewrite read32_le32 by lia. cbn [mbind option_bind].
  rewrite read16_le16 by lia. cbn [mbind option_bind].
  rewrite read16_le16 by exact R2. cbn [mbind option_bind].
  rewrite read32_le32 by exact R3. cbn [mbind option_bind].
  rewrite read32_le32 by exact R4. cbn [mbind option_bind].
  rewrite read16_le16 by exact R5. cbn [mbind option_bind].
  rewrite read16_le16 by exact R6. cbn [mbind option_bind].
  rewrite expect_app. cbn [mbind option_bind].
  rewrite read32_le32 by exact R7. cbn [mbind option_bind].
  rewrite !Z.eqb_refl, (proj2 (Z.leb_le _ _) (Z.le_refl _)).
  cbn [andb]. rewrite Nat2Z.id, firstn_all. reflexivity.
Qed.

(** What the script writes reads back as one channel, two bytes per
    sample, the given rate and the samples of the frames in order. *)
Lemma wave_read_wav_of_frames (rate : Z) (frames : list Frame) (file : bytes) :
  wav_of_frames rate frames = inr file ->
  wave_read file =
    Some {| wi_nchannels := 1; wi_sampwidth := 2; wi_framerate := rate;
            wi_samples := concat frames |}.
Proof.
  unfold wav_of_frames. intros H.
  apply ebind_inr in H as (data & Hdata & Hfile).
  rewrite (wave_read_wave_file _ _ _ _ Hfile). do 2 f_equal.
  pose proof (unpack_join_frames frames data [] Hdata) as Hs.
  rewrite !app_nil_r in Hs. exact Hs.
Qed.

(** Packing succeeds on sixteen-bit samples, two bytes a sample. *)
Lemma pack_frame_fits (frame : Frame) :
  Forall int16 frame ->
  exists b, pack_frame frame = inr b /\ length b = (2 * length frame)%nat.
Proof.
  induction 1 as [|x frame Hx _ (b & Hb & Hlen)]; simpl.
  - exists []. split; reflexivity.
  - unfold pack_h. unfold int16 in Hx.
    destruct (-32768 <=? x) eqn:Hlo, (x <=? 32767) eqn:Hhi; try lia.
    simpl. rewrite Hb. simpl. eexists. split; [reflexivity|].
    simpl. lia.
Qed.

Lemma join_frames_fits (frames : list Frame) :
  Forall (Forall int16) frames ->
  exists b, join_frames frames = inr b /\
            length b = (2 * length (concat frames))%nat.
Proof.
  induction 1 as [|frame frames Hf _ (b & Hb & Hlen)]; simpl.
  - exists []. split; reflexivity.
  - destruct (pack_frame_fits frame Hf) as (bf & Hbf & Hlf).
    rewrite Hbf, Hb. simpl. eexists. split; [reflexivity|].
    rewrite !length_app. lia.
Qed.

(** The write is defined on every buffer of sixteen-bit samples whose
    sizes fit the 32-bit fields of the header. *)
Lemma wav_of_frames_fits (rate : Z) (frames : list Frame) :
  Forall (Forall int16) frames ->
  0 < rate < 2147483648 ->
  36 + 2 * Z.of_nat (length (concat frames)) < 4294967296 ->
  exists file, wav_of_frames rate frames = inr file.
Proof.
  intros Hs Hrate Hlen.
  destruct (join_frames_fits frames Hs) as (data & Hdata & Hd).
  unfold wav_of_frames. rewrite Hdata. cbn [ebind]. unfold wave_file.
  destruct (rate <=? 0) eqn:Hr; [lia|].
  rewrite (pack_L_fits (36 + _)) by lia. cbn [ebind].
  rewrite (pack_H_fits 1) by lia. cbn [ebind].
  rewrite (pack_L_fits rate) by lia. cbn [ebind].
  rewrite (pack_L_fits (1 * rate * 2)) by lia. cbn [ebind].
  rewrite (pack_H_fits (1 * 2)) by lia. cbn [ebind].
  rewrite (pack_H_fits (2 * 8)) by lia. cbn [ebind].
  rewrite (pack_L_fits (Z.of_nat _)) by lia. cbn [ebind].
  eexists. reflexivity.
Qed.

(** ** Traces *)

Lemma emitted_app (t u : list Event) : emitted (t ++ u) = emitted t ++ emitted u.
Proof.
  induction t as [|ev t IH]; simpl; [reflexivity|].
  destruct ev; simpl; rewrite IH; reflexivity.
Qed.

Lemma emitted_quiet (t : list Event) : forallb quiet t = true -> emitted t = [].
Proof.
  induction t as [|ev t IH]; simpl; [reflexivity|].
  intros [Hev Ht]%andb_prop. destruct ev; try discriminate; auto.
Qed.

Lemma quiet_no_audio (t : list Event) :
  forallb quiet t = true -> Print MsgNoAudio ∉ t.
Proof.
  intros Hq Hin. apply list_elem_of_In in Hin.
  rewrite forallb_forall in Hq. apply Hq in Hin. discriminate.
Qed.

Lemma log_log (s : St) (t u : list Event) : log (log s t) u = log s (t ++ u).
Proof. unfold log; simpl. rewrite <- app_assoc. reflexivity. Qed.

Section Properties.

Variable cfg : Config.

(** Unfold the monad and the program down to states. *)
Ltac step :=
  unfold loop_body, on_trigger, while_recording, complete_session,
    deliver_and_dispose, send_audio_email, send_attempt, open_read,
    wave_write, leave_residue, os_remove, try_finally, try_except, bind,
    ret, raise, get, print, emit, may_raise, set_recording, set_audio_frames,
    set_recording_start_time, set_fs, log; simpl.

(** Close a goal [exists t, ... = Ok _ (log s t) /\ forallb quiet t = true /\ _]
    once the run has been reduced to a state. *)
Ltac traced :=
  rewrite <- ?app_assoc; simpl; repeat split;
  solve [reflexivity | discriminate | intros _; eexists; reflexivity].

(** *** Delivery *)

Lemma send_attempt_spec (path se pw re : string) (env : Env) (s : St) :
  exists out t,
    send_attempt cfg path se pw re env s = Ok out (log s t) /\
    forallb quiet t = true /\
    (out = Success -> is_Some (fs s !! path)).
Proof.
  step.
  destruct (fs s !! path) as [content|] eqn:Hfile; simpl.
  2:{ eexists _, [_; _]. traced. }
  destruct (env_readable env); simpl.
  2:{ eexists _, [_; _]. traced. }
  destruct (env_smtp env) as [c1 c2 c3 c4 c5]; simpl.
  destruct c1 as [[]|]; simpl; try (eexists _, [_; _; _]; traced).
  destruct c2 as [[]|]; simpl; try (eexists _, [_; _; _; _]; traced).
  destruct c3 as [[]|]; simpl; try (eexists _, [_; _; _; _; _]; traced).
  destruct (env_as_string_raises env) as [[]|]; simpl;
    try (eexists _, [_; _; _; _; _]; traced).
  destruct c4 as [[]|]; simpl; try (eexists _, [_; _; _; _; _; _]; traced).
  destruct c5 as [[]|]; simpl; try (eexists _, [_; _; _; _; _; _; _]; traced).
Qed.

(** C7.  When the artifact cannot be read (there is no file at the path,
    or the file is unreadable), [send_audio_email] returns [False] from the
    attachment handler, outcome [AttachmentFailure], having only tried to
    open the file and printed one line: the trace gains no event that
    contacts the relay. *)
Theorem unreadable_attachment_short_circuits
    (path se pw re : string) (env : Env) (s : St) :
  fs s !! path = None \/ env_readable env = false ->
  exists m,
    send_attempt cfg path se pw re env s
      = Ok AttachmentFailure (log s [FileOpen path; Print m]) /\
    send_audio_email cfg path se pw re env s
      = Ok false (log s [FileOpen path; Print m]) /\
    network_events (trace (log s [FileOpen path; Print m]))
      = network_events (trace s).
Proof.
  intros Hbad. step.
  assert (Hnet : forall m, network_events (trace s ++ [FileOpen path; Print m])
                           = network_events (trace s)).
  { intros m. unfold network_events. rewrite filter_app. simpl.
    rewrite !filter_cons_False by discriminate. rewrite filter_nil.
    apply app_nil_r. }
  destruct (fs s !! path) as [content|] eqn:Hfile; simpl.
  - destruct Hbad as [Hbad|Hbad]; [discriminate|]. rewrite Hbad. simpl.
    eexists. rewrite <- !app_assoc. simpl. eauto.
  - eexists. rewrite <- !app_assoc. simpl. eauto.
Qed.

(** *** Disposal *)

Lemma deliver_and_dispose_spec (path : string) (env : Env) (s : St) :
  exists out t,
    send_attempt cfg path (SENDER_EMAIL cfg) (SENDER_APP_PASSWORD cfg)
                 (RECEIVER_EMAIL cfg) env s = Ok out (log s t) /\
    forallb quiet t = true /\
    deliver_and_dispose cfg path env s =
      match out, env_remove_raises env with
      | Success, Some e => Raised e (log s (t ++ [Remove path]))
      | _, _ => Ok tt (disposed path env out (log s t))
      end.
Proof.
  destruct (send_attempt_spec path (SENDER_EMAIL cfg) (SENDER_APP_PASSWORD cfg)
              (RECEIVER_EMAIL cfg) env s) as (out & t & Hsend & Hq & Hex).
  exists out, t. split; [exact Hsend|]. split; [exact Hq|].
  unfold deliver_and_dispose, send_audio_email, bind at 1 2. rewrite Hsend.
  unfold ret at 1. destruct out; simpl;
    try (destruct (env_remove_raises env); reflexivity).
  destruct (Hex eq_refl) as [content Hc].
  step. rewrite Hc. simpl.
  destruct (env_remove_raises env); simpl; rewrite <- !app_assoc; reflexivity.
Qed.

(** *** A session *)

Lemma complete_session_written (env : Env) (content : bytes) (s : St) :
  audio_frames s <> [] ->
  write_result cfg (audio_frames s) env = inr content ->
  let path := temp_filename_at cfg (env_now env) in
  exists out t,
    send_attempt cfg path (SENDER_EMAIL cfg) (SENDER_APP_PASSWORD cfg)
                 (RECEIVER_EMAIL cfg) env (written cfg env content s)
      = Ok out (log (written cfg env content s) t) /\
    forallb quiet t = true /\
    complete_session cfg env s
      = Ok tt (cleared (disposed path env out
                          (log (written cfg env content s) t))).
Proof.
  intros Hne Hw path.
  destruct (deliver_and_dispose_spec path env (written cfg env content s))
    as (out & t & Hsend & Hq & Hd).
  exists out, t. split; [exact Hsend|]. split; [exact Hq|].
  unfold complete_session, bind at 1, get at 1.
  destruct (audio_frames s) as [|f fr] eqn:Hfr; [congruence|].
  fold path. unfold try_finally, try_except, bind at 1, wave_write.
  unfold bind at 1, emit at 1. rewrite Hw.
  unfold bind at 1, get at 1, set_fs at 1, bind at 1, print at 1, emit at 1,
    bind at 1, print at 1, emit at 1.
  rewrite !log_log. simpl app.
  replace (log _ _) with (written cfg env content s).
  2:{ unfold written, log. simpl. rewrite Hfr, <- app_assoc. reflexivity. }
  rewrite Hd. unfold disposed. destruct out; try reflexivity.
  destruct (env_remove_raises env) as [e|]; [|reflexivity].
  unfold print, emit, bind, set_audio_frames, ret, cleared, disposed, log.
  simpl. rewrite <- !app_assoc. reflexivity.
Qed.

Lemma complete_session_failed (env : Env) (e : exn) (s : St) :
  audio_frames s <> [] ->
  write_result cfg (audio_frames s) env = inl e ->
  complete_session cfg env s = Ok tt (write_failed cfg env e s).
Proof.
  intros Hne Hw. unfold complete_session, bind at 1, get at 1.
  destruct (audio_frames s) as [|f fr] eqn:Hfr; [congruence|].
  unfold try_finally, try_except, bind at 1, wave_write.
  unfold bind at 1, emit at 1. rewrite Hw. unfold write_failed. rewrite Hfr.
  step. destruct (env_write_residue env); simpl;
    rewrite <- !app_assoc; reflexivity.
Qed.

Lemma complete_session_spec (env : Env) (s : St) :
  audio_frames s <> [] ->
  exists s' t,
    complete_session cfg env s = Ok tt s' /\
    recording s' = recording s /\
    recording_start_time s' = recording_start_time s /\
    audio_frames s' = [] /\
    trace s' = trace s ++ WaveWrite (temp_filename_at cfg (env_now env))
                            (sample_rate cfg) (audio_frames s) :: t /\
    forallb quiet t = true.
Proof.
  intros Hne.
  destruct (write_result cfg (audio_frames s) env) as [e|content] eqn:Hw.
  - eexists _, _. split; [apply (complete_session_failed _ _ _ Hne Hw)|].
    simpl. repeat split; reflexivity.
  - destruct (complete_session_written env content s Hne Hw)
      as (out & t & _ & Hq & ->).
    unfold disposed.
    destruct out; [destruct (env_remove_raises env)|..]; simpl;
      eexists _, _; (split; [reflexivity|]); simpl;
      rewrite <- ?app_assoc; simpl; repeat split;
      simpl; rewrite ?forallb_app, ?Hq; reflexivity.
Qed.

(** *** One iteration *)

Lemma on_trigger_arms (tk : Tick) (s : St) :
  recording s = false -> tk_keyword_index tk = 0 ->
  on_trigger tk s = Ok tt (armed tk s).
Proof.
  intros Hr Hk. unfold on_trigger. rewrite Hk. simpl.
  unfold bind at 1, get. rewrite Hr. reflexivity.
Qed.

Lemma on_trigger_skips (tk : Tick) (s : St) :
  recording s = true \/ tk_keyword_index tk <> 0 ->
  on_trigger tk s = Ok tt s.
Proof.
  intros H. unfold on_trigger.
  destruct (Z.eqb_spec (tk_keyword_index tk) 0) as [Hk|Hk]; [|reflexivity].
  destruct H as [Hr|Hn]; [|contradiction].
  unfold bind, get. rewrite Hr. reflexivity.
Qed.

Lemma loop_body_recording (tk : Tick) (s : St) :
  recording s = true -> loop_body cfg tk s = while_recording cfg tk s.
Proof.
  intros Hr. unfold loop_body, bind.
  rewrite on_trigger_skips by (left; exact Hr). reflexivity.
Qed.

Lemma loop_body_arms (tk : Tick) (s : St) :
  recording s = false -> tk_keyword_index tk = 0 ->
  loop_body cfg tk s = while_recording cfg tk (armed tk s).
Proof.
  intros Hr Hk. unfold loop_body, bind.
  rewrite on_trigger_arms by assumption. reflexivity.
Qed.

Lemma loop_body_idle (tk : Tick) (s : St) :
  recording s = false -> tk_keyword_index tk <> 0 ->
  loop_body cfg tk s = Ok tt s.
Proof.
  intros Hr Hk. unfold loop_body, bind.
  rewrite on_trigger_skips by (right; exact Hk).
  unfold while_recording, bind, get. rewrite Hr. reflexivity.
Qed.

Lemma while_recording_eq (tk : Tick) (s : St) :
  while_recording cfg tk s =
    if recording s then
      match recording_start_time s with
      | None => Raised TypeError (buffered [tk_pcm tk] s)
      | Some t0 =>
          if duration_reached cfg (tk_check_time tk - t0)%Q then
            match complete_session cfg (tk_env tk) (closing tk s) with
            | Ok _ s' => Ok tt (log s' [Print MsgListening])
            | Raised e s' => Raised e s'
            end
          else Ok tt (buffered [tk_pcm tk] s)
      end
    else Ok tt s.
Proof.
  unfold while_recording, bind, get, set_audio_frames, set_recording,
    set_recording_start_time, print, emit, ret, raise, closing, buffered, log.
  destruct (recording s) eqn:Hr; [|reflexivity].
  simpl. rewrite Hr.
  destruct (recording_start_time s) as [t0|]; [|reflexivity].
  destruct (duration_reached cfg (tk_check_time tk - t0)%Q); reflexivity.
Qed.

Lemma while_recording_buffers (tk : Tick) (s : St) (t0 : Q) :
  recording s = true -> recording_start_time s = Some t0 ->
  duration_reached cfg (tk_check_time tk - t0)%Q = false ->
  while_recording cfg tk s = Ok tt (buffered [tk_pcm tk] s).
Proof.
  intros Hr Hs Hd. rewrite while_recording_eq, Hr, Hs, Hd. reflexivity.
Qed.

Lemma while_recording_completes (tk : Tick) (s : St) (t0 : Q) :
  recording s = true -> recording_start_time s = Some t0 ->
  duration_reached cfg (tk_check_time tk - t0)%Q = true ->
  exists s' t,
    while_recording cfg tk s = Ok tt s' /\
    recording s' = false /\ recording_start_time s' = None /\
    audio_frames s' = [] /\
    trace s' = trace s ++
                 Print MsgDurationReached
                 :: WaveWrite (temp_filename_at cfg (env_now (tk_env tk)))
                      (sample_rate cfg) (audio_frames s ++ [tk_pcm tk])
                 :: t /\
    forallb quiet t = true.
Proof.
  intros Hr Hs Hd. rewrite while_recording_eq, Hr, Hs, Hd.
  destruct (complete_session_spec (tk_env tk) (closing tk s))
    as (s' & t & -> & Hrec & Hst & Hfr & Htr & Hq).
  { simpl. intros H. apply app_eq_nil in H as [_ H]. discriminate. }
  exists (log s' [Print MsgListening]), (t ++ [Print MsgListening]).
  split; [reflexivity|]. simpl. rewrite Hrec, Hst, Hfr, Htr. simpl.
  repeat split; try reflexivity.
  - rewrite <- !app_assoc. reflexivity.
  - rewrite forallb_app, Hq. reflexivity.
Qed.

(** *** Runs *)

Lemma run_cons (tk : Tick) (rest : list Tick) (s : St) :
  run cfg (tk :: rest) s =
    match loop_body cfg tk s with
    | Ok _ s' => run cfg rest s'
    | Raised e s' => Raised e s'
    end.
Proof. reflexivity. Qed.

Lemma run_app (a b : list Tick) (s : St) :
  run cfg (a ++ b) s =
    match run cfg a s with
    | Ok _ s' => run cfg b s'
    | Raised e s' => Raised e s'
    end.
Proof.
  revert s. induction a as [|tk a IH]; intros s; simpl; [reflexivity|].
  unfold bind. destruct (loop_body cfg tk s) as [[] s'|e s']; [apply IH|].
  reflexivity.
Qed.

Lemma run_idle (ticks : list Tick) (s : St) :
  recording s = false ->
  Forall (fun tk => tk_keyword_index tk <> 0) ticks ->
  run cfg ticks s = Ok tt s.
Proof.
  intros Hr Hk. induction Hk as [|tk ticks Hk _ IH]; simpl; [reflexivity|].
  unfold bind. rewrite loop_body_idle by assumption. exact IH.
Qed.

Lemma buffered_nil (s : St) : buffered [] s = s.
Proof. destruct s. unfold buffered. simpl. rewrite app_nil_r. reflexivity. Qed.

Lemma buffered_buffered (a b : list Frame) (s : St) :
  buffered b (buffered a s) = buffered (a ++ b) s.
Proof. unfold buffered. simpl. rewrite app_assoc. reflexivity. Qed.

Lemma run_buffers (ticks : list Tick) (s : St) (t0 : Q) :
  recording s = true -> recording_start_time s = Some t0 ->
  Forall (fun tk => duration_reached cfg (tk_check_time tk - t0)%Q = false)
         ticks ->
  run cfg ticks s = Ok tt (buffered (map tk_pcm ticks) s).
Proof.
  intros Hr Hs Hd. revert s Hr Hs.
  induction Hd as [|tk ticks Hd _ IH]; intros s Hr Hs; simpl.
  - rewrite buffered_nil. reflexivity.
  - unfold bind. rewrite loop_body_recording by exact Hr.
    rewrite (while_recording_buffers _ _ _ Hr Hs Hd).
    rewrite IH by assumption. rewrite buffered_buffered. reflexivity.
Qed.

Lemma loop_body_total (tk : Tick) (s : St) :
  wf s -> exists s', loop_body cfg tk s = Ok tt s' /\ wf s'.
Proof.
  intros Hwf.
  assert (Hrec : forall s1, recording s1 = true ->
            is_Some (recording_start_time s1) ->
            exists s', while_recording cfg tk s1 = Ok tt s' /\ wf s').
  { intros s1 Hr [t0 Hs].
    destruct (duration_reached cfg (tk_check_time tk - t0)%Q) eqn:Hd.
    - destruct (while_recording_completes tk s1 t0 Hr Hs Hd)
        as (s' & t & -> & Hr' & _).
      exists s'. split; [reflexivity|]. intros H. congruence.
    - rewrite (while_recording_buffers tk s1 t0 Hr Hs Hd).
      eexists. split; [reflexivity|]. intros _. simpl. eauto. }
  destruct (recording s) eqn:Hr.
  - rewrite loop_body_recording by exact Hr. apply Hrec; auto.
  - destruct (Z.eq_dec (tk_keyword_index tk) 0) as [Hk|Hk].
    + rewrite loop_body_arms by assumption. apply Hrec; simpl; eauto.
    + rewrite loop_body_idle by assumption. eauto.
Qed.

Lemma run_total (ticks : list Tick) (s : St) :
  wf s -> exists s', run cfg ticks s = Ok tt s' /\ wf s'.
Proof.
  revert s. induction ticks as [|tk ticks IH]; intros s Hwf; simpl.
  - eauto.
  - destruct (loop_body_total tk s Hwf) as (s1 & H1 & Hwf1).
    unfold bind. rewrite H1. apply IH, Hwf1.
Qed.

Lemma wf_init (files : gmap string (list Z)) : wf (init files).
Proof. intros H. discriminate. Qed.

(** C1.  Let the loop be idle, let no frame of [pre] carry answer 0, let
    the first frame of [win ++ [last]] carry answer 0 (the one match that
    occurs while idle), let the duration test fail on every frame of [win]
    and succeed on [last], elapsed time being counted from the start time
    taken on that first frame.  Then the run over [pre ++ win ++ [last]]
    hands exactly one more buffer to the writer, and it holds the frames of
    [win ++ [last]], each once, in arrival order; the loop ends idle with an
    empty buffer. *)
Theorem single_trigger_window
    (pre win : list Tick) (last : Tick) (s : St) :
  recording s = false ->
  Forall (fun tk => tk_keyword_index tk <> 0) pre ->
  tk_keyword_index (hd last win) = 0 ->
  Forall (fun tk => duration_reached cfg
                      (tk_check_time tk - tk_trigger_time (hd last win))%Q
                    = false)
         win ->
  duration_reached cfg
    (tk_check_time last - tk_trigger_time (hd last win))%Q = true ->
  exists s',
    run cfg (pre ++ win ++ [last]) s = Ok tt s' /\
    emitted (trace s') = emitted (trace s) ++ [map tk_pcm (win ++ [last])] /\
    recording s' = false /\ audio_frames s' = [].
Proof.
  intros Hr Hpre Hk Hwin Hlast. set (first := hd last win) in *.
  rewrite run_app, (run_idle pre s Hr Hpre).
  assert (Hfin : forall s1, recording s1 = true ->
            recording_start_time s1 = Some (tk_trigger_time first) ->
            exists s', run cfg [last] s1 = Ok tt s' /\
              emitted (trace s')
                = emitted (trace s1) ++ [audio_frames s1 ++ [tk_pcm last]] /\
              recording s' = false /\ audio_frames s' = []).
  { intros s1 Hr1 Hs1. rewrite run_cons.
    rewrite loop_body_recording by exact Hr1.
    destruct (while_recording_completes last s1 _ Hr1 Hs1 Hlast)
      as (s' & t & -> & Hr' & _ & Hfr & Htr & Hq).
    exists s'. split; [reflexivity|]. rewrite Htr, emitted_app. simpl.
    rewrite (emitted_quiet t Hq). auto. }
  destruct win as [|w ws]; simpl in first.
  - subst first. simpl app. rewrite run_cons.
    rewrite loop_body_arms by assumption.
    destruct (while_recording_completes last (armed last s) _
                eq_refl eq_refl Hlast)
      as (s' & t & -> & Hr' & _ & Hfr & Htr & Hq).
    exists s'. split; [reflexivity|]. rewrite Htr, emitted_app. simpl.
    rewrite (emitted_quiet t Hq), emitted_app. simpl.
    rewrite app_nil_r. auto.
  - subst first. apply Forall_cons in Hwin as [Hw Hws].
    rewrite <- app_comm_cons, run_cons.
    rewrite loop_body_arms by assumption.
    rewrite (while_recording_buffers w (armed w s) _ eq_refl eq_refl Hw).
    rewrite run_app, (run_buffers ws (buffered [tk_pcm w] (armed w s))
                       (tk_trigger_time w) eq_refl eq_refl Hws).
    destruct (Hfin (buffered (map tk_pcm ws) (buffered [tk_pcm w] (armed w s)))
                eq_refl eq_refl) as (s' & -> & Hem & Hr' & Hfr).
    exists s'. split; [reflexivity|]. rewrite Hem. simpl.
    rewrite emitted_app. simpl. rewrite app_nil_r, map_app. auto.
Qed.
(** *** The capture state machine *)

(** C2.  On any sequence of frames on which the detector never answers 0,
    a loop that is idle leaves every variable, the file store and the trace
    as they were: it stays idle, hands no buffer to the writer and attempts
    no delivery. *)
Theorem no_trigger_stays_idle (ticks : list Tick) (s : St) :
  recording s = false ->
  Forall (fun tk => tk_keyword_index tk <> 0) ticks ->
  run cfg ticks s = Ok tt s.
Proof. intros Hr Hk. apply run_idle; assumption. Qed.

(** C3.  While recording, the detector's answer does not matter: the
    iteration with a match and the same iteration with any other answer end
    in the same state (buffer, start time, whether the window closes, files
    and trace). *)
Theorem retrigger_while_recording_ignored (tk : Tick) (k : Z) (s : St) :
  recording s = true ->
  loop_body cfg (with_keyword_index k tk) s = loop_body cfg tk s.
Proof.
  intros Hr. rewrite !loop_body_recording by exact Hr. reflexivity.
Qed.

(** C4.  When the duration test succeeds in an iteration that is recording
    after lines 118-123, the iteration hands the buffer with the current
    frame appended, which is not empty, to the writer; it never prints the
    line of the empty-buffer branch; and it ends idle with an empty buffer. *)
Theorem completion_emits_nonempty_buffer (tk : Tick) (s s1 : St) (t0 : Q) :
  on_trigger tk s = Ok tt s1 ->
  recording s1 = true ->
  recording_start_time s1 = Some t0 ->
  duration_reached cfg (tk_check_time tk - t0)%Q = true ->
  exists s' t,
    loop_body cfg tk s = Ok tt s' /\
    trace s' = trace s1 ++ t /\
    (Print MsgNoAudio ∉ t) /\
    emitted t = [audio_frames s1 ++ [tk_pcm tk]] /\
    audio_frames s1 ++ [tk_pcm tk] <> [] /\
    recording s' = false /\ audio_frames s' = [].
Proof.
  intros Htrig Hr Hs Hd. unfold loop_body, bind. rewrite Htrig.
  destruct (while_recording_completes tk s1 t0 Hr Hs Hd)
    as (s' & t & -> & Hr' & _ & Hfr & Htr & Hq).
  eexists s', _. split; [reflexivity|]. split; [exact Htr|].
  split; [|split; [|split; [|split; assumption]]].
  - rewrite !not_elem_of_cons. split; [discriminate|].
    split; [discriminate|]. apply quiet_no_audio, Hq.
  - simpl. rewrite (emitted_quiet t Hq). reflexivity.
  - intros H. apply app_eq_nil in H as [_ H]. discriminate.
Qed.

(** C10.  While idle, an answer of the detector other than 0 changes
    nothing: the loop stays idle and the buffer is what it was. *)
Theorem only_keyword_zero_starts (tk : Tick) (s : St) :
  recording s = false ->
  tk_keyword_index tk <> 0 ->
  loop_body cfg tk s = Ok tt s.
Proof. intros Hr Hk. apply loop_body_idle; assumption. Qed.

(** *** Persistence, delivery and retention *)

(** C5, as the code has it.  In a session whose artifact was written, the
    delivery attempt made on the state the write leaves decides the file
    together with [os.remove]: after [Success], when [os.remove] returns the
    file is no longer on storage, and when it raises (the exception is
    caught on line 160) the file is there with the content written; after
    any other outcome it is there with the content written. *)
Theorem delivery_outcome_decides_retention
    (env : Env) (content : bytes) (s : St) :
  audio_frames s <> [] ->
  write_result cfg (audio_frames s) env = inr content ->
  exists out s1 s',
    send_attempt cfg (temp_filename_at cfg (env_now env)) (SENDER_EMAIL cfg)
                 (SENDER_APP_PASSWORD cfg) (RECEIVER_EMAIL cfg) env
                 (written cfg env content s) = Ok out s1 /\
    complete_session cfg env s = Ok tt s' /\
    (out = Success -> env_remove_raises env = None ->
     fs s' !! temp_filename_at cfg (env_now env) = None) /\
    (out = Success -> is_Some (env_remove_raises env) ->
     fs s' !! temp_filename_at cfg (env_now env) = Some content) /\
    (out <> Success ->
     fs s' !! temp_filename_at cfg (env_now env) = Some content).
Proof.
  intros Hne Hw.
  destruct (complete_session_written env content s Hne Hw)
    as (out & t & Hsend & _ & Hcs).
  eexists out, _, _. split; [exact Hsend|]. split; [exact Hcs|].
  unfold disposed.
  destruct out; [destruct (env_remove_raises env) as [e|]|..]; simpl;
    (split; [intros H1 H2|split; [intros H1 H2|intros H1]]);
    try congruence; try (destruct H2; congruence);
    solve [apply lookup_delete_eq | apply lookup_insert_eq].
Qed.


Lemma wave_write_ok
    (path : string) (frames : list Frame) (env : Env) (content : bytes)
    (s : St) :
  write_result cfg frames env = inr content ->
  wave_write cfg path frames env s =
    Ok tt {| recording := recording s; audio_frames := audio_frames s;
             recording_start_time := recording_start_time s;
             fs := <[path := content]> (fs s);
             trace := trace s ++ [WaveWrite path (sample_rate cfg) frames] |}.
Proof.
  intros Hw. unfold wave_write, bind, emit. rewrite Hw. reflexivity.
Qed.

(** C8, as the code has it.  A write that succeeds leaves the container at
    the timestamp-derived path and changes no other path; it adds a file
    when none of that name existed and replaces the content when one did. *)
Theorem write_creates_or_replaces
    (path : string) (frames : list Frame) (env : Env) (content : bytes)
    (s : St) :
  write_result cfg frames env = inr content ->
  exists s',
    wave_write cfg path frames env s = Ok tt s' /\
    fs s' !! path = Some content /\
    (forall other, other <> path -> fs s' !! other = fs s !! other) /\
    (fs s !! path = None -> size (fs s') = S (size (fs s))) /\
    (is_Some (fs s !! path) -> size (fs s') = size (fs s)).
Proof.
  intros Hw. rewrite (wave_write_ok path frames env content s Hw).
  eexists. split; [reflexivity|]. simpl.
  split; [apply lookup_insert_eq|]. split; [|split].
  - intros other Hother. apply lookup_insert_ne. congruence.
  - apply map_size_insert_None.
  - apply map_size_insert_Some.
Qed.

(** C9.  The file a write leaves at its path reads back as one channel,
    two bytes (16 bits) per sample, the session's sample rate, and the
    samples of the frames in their order.  [wave_write_succeeds] below gives
    the buffers on which the write does return. *)
Theorem artifact_round_trip
    (path : string) (frames : list Frame) (env : Env) (s s' : St) :
  wave_write cfg path frames env s = Ok tt s' ->
  exists content,
    fs s' !! path = Some content /\
    wave_read content =
      Some {| wi_nchannels := 1; wi_sampwidth := 2;
              wi_framerate := sample_rate cfg;
              wi_samples := concat frames |}.
Proof.
  unfold wave_write, bind, emit.
  destruct (write_result cfg frames env) as [e|content] eqn:Hw.
  - unfold leave_residue. destruct (env_write_residue env); discriminate.
  - unfold get, set_fs. intros [= <-]. exists content. simpl.
    split; [apply lookup_insert_eq|].
    unfold write_result in Hw. destruct (env_write_raises env); [discriminate|].
    apply wave_read_wav_of_frames, Hw.
Qed.

Lemma wave_write_succeeds
    (path : string) (frames : list Frame) (env : Env) (s : St) :
  Forall (Forall int16) frames ->
  0 < sample_rate cfg < 2147483648 ->
  36 + 2 * Z.of_nat (length (concat frames)) < 4294967296 ->
  env_write_raises env = false ->
  exists s', wave_write cfg path frames env s = Ok tt s'.
Proof.
  intros Hs Hrate Hlen Hio.
  destruct (wav_of_frames_fits _ _ Hs Hrate Hlen) as [content Hc].
  eexists. apply (wave_write_ok path frames env content s).
  unfold write_result. rewrite Hio. exact Hc.
Qed.

End Properties.

(** ** The properties at concrete inputs *)

(** A whole window with the relay up: the artifact is written, sent and
    removed. *)
Example delivered_artifact_is_removed :
  exists s',
    run Sample.cfg (Sample.pre ++ Sample.win ++ [Sample.last]) (init ∅)
      = Ok tt s' /\
    fs s' = ∅ /\
    Remove Sample.path ∈ trace s' /\
    length (network_events (trace s')) = 5%nat.
Proof.
  eexists. split; [vm_compute; reflexivity|].
  split; [reflexivity|]. split; [|reflexivity].
  apply list_elem_of_In. vm_compute. tauto.
Qed.

(** The same session with the relay down: the artifact stays. *)
Example undelivered_artifact_is_kept :
  exists s',
    run Sample.cfg_zero [Sample.first_session] (init ∅) = Ok tt s' /\
    is_Some (fs s' !! Sample.path) /\
    network_events (trace s') = [SmtpConnect "smtp.example.org" 587].
Proof.
  eexists. split; [vm_compute; reflexivity|].
  split; [eexists; vm_compute; reflexivity | reflexivity].
Qed.

(** A window of fifteen seconds opened at time 1 and closed at time 16. *)
Lemma single_trigger_window_witness :
  recording (init ∅) = false /\
  Forall (fun tk => tk_keyword_index tk <> 0) Sample.pre /\
  tk_keyword_index (hd Sample.last Sample.win) = 0 /\
  Forall (fun tk => duration_reached Sample.cfg
            (tk_check_time tk - tk_trigger_time (hd Sample.last Sample.win))%Q
            = false) Sample.win /\
  duration_reached Sample.cfg
    (tk_check_time Sample.last
     - tk_trigger_time (hd Sample.last Sample.win))%Q = true /\
  exists s',
    run Sample.cfg (Sample.pre ++ Sample.win ++ [Sample.last]) (init ∅)
      = Ok tt s' /\
    emitted (trace s')
      = emitted (trace (init ∅)) ++ [[[1; 1]; [2; 2]; [3; 3]]] /\
    recording s' = false /\ audio_frames s' = [].
Proof.
  assert (H1 : recording (init ∅) = false) by reflexivity.
  assert (H2 : Forall (fun tk => tk_keyword_index tk <> 0) Sample.pre)
    by (repeat constructor; discriminate).
  assert (H3 : tk_keyword_index (hd Sample.last Sample.win) = 0)
    by reflexivity.
  assert (H4 : Forall (fun tk => duration_reached Sample.cfg
            (tk_check_time tk - tk_trigger_time (hd Sample.last Sample.win))%Q
            = false) Sample.win)
    by (repeat constructor).
  assert (H5 : duration_reached Sample.cfg
    (tk_check_time Sample.last
     - tk_trigger_time (hd Sample.last Sample.win))%Q = true) by reflexivity.
  exact (conj H1 (conj H2 (conj H3 (conj H4 (conj H5
    (single_trigger_window Sample.cfg Sample.pre Sample.win Sample.last
       (init ∅) H1 H2 H3 H4 H5)))))).
Defined.

(** Two frames with answers -1 and 1 leave the initial state as it is. *)
Lemma no_trigger_stays_idle_witness :
  recording (init ∅) = false /\
  Forall (fun tk => tk_keyword_index tk <> 0)
         [Sample.tick [1] (-1) 0%Q Sample.env; Sample.tick [2] 1 1%Q Sample.env] /\
  run Sample.cfg
      [Sample.tick [1] (-1) 0%Q Sample.env; Sample.tick [2] 1 1%Q Sample.env]
      (init ∅) = Ok tt (init ∅).
Proof.
  assert (H1 : recording (init ∅) = false) by reflexivity.
  assert (H2 : Forall (fun tk => tk_keyword_index tk <> 0)
         [Sample.tick [1] (-1) 0%Q Sample.env; Sample.tick [2] 1 1%Q Sample.env])
    by (repeat constructor; discriminate).
  exact (conj H1 (conj H2 (no_trigger_stays_idle Sample.cfg _ _ H1 H2))).
Defined.

(** In the middle of a window, the closing frame with and without its match. *)
Lemma retrigger_while_recording_ignored_witness :
  recording Sample.mid_window = true /\
  loop_body Sample.cfg (with_keyword_index (-1) Sample.last) Sample.mid_window
    = loop_body Sample.cfg Sample.last Sample.mid_window.
Proof.
  assert (H1 : recording Sample.mid_window = true) by reflexivity.
  exact (conj H1 (retrigger_while_recording_ignored Sample.cfg Sample.last
                    (-1) Sample.mid_window H1)).
Defined.

(** The closing frame of a window that holds one frame. *)
Lemma completion_emits_nonempty_buffer_witness :
  on_trigger Sample.last Sample.mid_window = Ok tt Sample.mid_window /\
  recording Sample.mid_window = true /\
  recording_start_time Sample.mid_window = Some 0%Q /\
  duration_reached Sample.cfg (tk_check_time Sample.last - 0)%Q = true /\
  exists s' t,
    loop_body Sample.cfg Sample.last Sample.mid_window = Ok tt s' /\
    trace s' = trace Sample.mid_window ++ t /\
    (Print MsgNoAudio ∉ t) /\
    emitted t = [[[1; 2]; [3; 3]]] /\
    [[1; 2]; [3; 3]] <> [] /\
    recording s' = false /\ audio_frames s' = [].
Proof.
  assert (H1 : on_trigger Sample.last Sample.mid_window
               = Ok tt Sample.mid_window) by reflexivity.
  assert (H2 : recording Sample.mid_window = true) by reflexivity.
  assert (H3 : recording_start_time Sample.mid_window = Some 0%Q)
    by reflexivity.
  assert (H4 : duration_reached Sample.cfg (tk_check_time Sample.last - 0)%Q
               = true) by reflexivity.
  exact (conj H1 (conj H2 (conj H3 (conj H4
    (completion_emits_nonempty_buffer Sample.cfg Sample.last
       Sample.mid_window Sample.mid_window 0%Q H1 H2 H3 H4))))).
Defined.

(** Answer 1 on the first frame. *)
Lemma only_keyword_zero_starts_witness :
  recording (init ∅) = false /\
  tk_keyword_index (Sample.tick [1] 1 0%Q Sample.env) <> 0 /\
  loop_body Sample.cfg (Sample.tick [1] 1 0%Q Sample.env) (init ∅)
    = Ok tt (init ∅).
Proof.
  assert (H1 : recording (init ∅) = false) by reflexivity.
  assert (H2 : tk_keyword_index (Sample.tick [1] 1 0%Q Sample.env) <> 0)
    by discriminate.
  exact (conj H1 (conj H2 (only_keyword_zero_starts Sample.cfg _ _ H1 H2))).
Defined.

(** A session whose write succeeds, the relay being up. *)
Lemma delivery_outcome_decides_retention_witness :
  audio_frames Sample.mid_window <> [] /\
  write_result Sample.cfg (audio_frames Sample.mid_window) Sample.env
    = inr Sample.content /\
  exists out s1 s',
    send_attempt Sample.cfg (temp_filename_at Sample.cfg (env_now Sample.env))
      (SENDER_EMAIL Sample.cfg) (SENDER_APP_PASSWORD Sample.cfg)
      (RECEIVER_EMAIL Sample.cfg) Sample.env
      (written Sample.cfg Sample.env Sample.content Sample.mid_window)
      = Ok out s1 /\
    complete_session Sample.cfg Sample.env Sample.mid_window = Ok tt s' /\
    (out = Success -> env_remove_raises Sample.env = None ->
     fs s' !! temp_filename_at Sample.cfg (env_now Sample.env) = None) /\
    (out = Success -> is_Some (env_remove_raises Sample.env) ->
     fs s' !! temp_filename_at Sample.cfg (env_now Sample.env)
       = Some Sample.content) /\
    (out <> Success ->
     fs s' !! temp_filename_at Sample.cfg (env_now Sample.env)
       = Some Sample.content).
Proof.
  assert (H1 : audio_frames Sample.mid_window <> []) by discriminate.
  assert (H2 : write_result Sample.cfg (audio_frames Sample.mid_window)
                 Sample.env = inr Sample.content) by reflexivity.
  exact (conj H1 (conj H2
    (delivery_outcome_decides_retention Sample.cfg Sample.env Sample.content
       Sample.mid_window H1 H2))).
Defined.

(** C5, as stated, fails.  The artifact is written, the relay takes the
    message and the outcome is [Success], but [os.remove] raises
    [PermissionError]; line 160 catches it and the file is still on storage
    with the content written. *)
Lemma successful_delivery_can_leave_the_artifact :
  audio_frames Sample.mid_window <> [] /\
  write_result Sample.cfg (audio_frames Sample.mid_window)
    Sample.env_cannot_remove = inr Sample.content /\
  exists s1 s',
    send_attempt Sample.cfg Sample.path
      (SENDER_EMAIL Sample.cfg) (SENDER_APP_PASSWORD Sample.cfg)
      (RECEIVER_EMAIL Sample.cfg) Sample.env_cannot_remove
      (written Sample.cfg Sample.env_cannot_remove Sample.content
         Sample.mid_window)
      = Ok Success s1 /\
    complete_session Sample.cfg Sample.env_cannot_remove Sample.mid_window
      = Ok tt s' /\
    fs s' !! Sample.path = Some Sample.content /\
    Print (MsgSaveOrSendError PermissionError) ∈ trace s'.
Proof.
  split; [discriminate|]. split; [reflexivity|].
  eexists _, _.
  split; [vm_compute; reflexivity|].
  split; [vm_compute; reflexivity|].
  split; [vm_compute; reflexivity|].
  apply list_elem_of_In. vm_compute. tauto.
Qed.


(** Sending a path at which there is no file. *)
Lemma unreadable_attachment_short_circuits_witness :
  (fs (init ∅) !! Sample.path = None \/ env_readable Sample.env = false) /\
  exists m,
    send_attempt Sample.cfg Sample.path "a" "b" "c" Sample.env (init ∅)
      = Ok AttachmentFailure (log (init ∅) [FileOpen Sample.path; Print m]) /\
    send_audio_email Sample.cfg Sample.path "a" "b" "c" Sample.env (init ∅)
      = Ok false (log (init ∅) [FileOpen Sample.path; Print m]) /\
    network_events (trace (log (init ∅) [FileOpen Sample.path; Print m]))
      = network_events (trace (init ∅)).
Proof.
  assert (H1 : fs (init ∅) !! Sample.path = None
               \/ env_readable Sample.env = false) by (left; reflexivity).
  exact (conj H1 (unreadable_attachment_short_circuits Sample.cfg Sample.path
                    "a" "b" "c" Sample.env (init ∅) H1)).
Defined.

(** Writing one frame on an empty file store. *)
Lemma write_creates_or_replaces_witness :
  write_result Sample.cfg [[1; 2]] Sample.env = inr Sample.content /\
  exists s',
    wave_write Sample.cfg Sample.path [[1; 2]] Sample.env (init ∅) = Ok tt s' /\
    fs s' !! Sample.path = Some Sample.content /\
    (forall other, other <> Sample.path ->
                   fs s' !! other = fs (init ∅) !! other) /\
    (fs (init ∅) !! Sample.path = None ->
     size (fs s') = S (size (fs (init ∅)))) /\
    (is_Some (fs (init ∅) !! Sample.path) ->
     size (fs s') = size (fs (init ∅))).
Proof.
  assert (H1 : write_result Sample.cfg [[1; 2]] Sample.env
               = inr Sample.content) by reflexivity.
  exact (conj H1 (write_creates_or_replaces Sample.cfg Sample.path [[1; 2]]
                    Sample.env Sample.content (init ∅) H1)).
Defined.

(** The file written for the frame [[1; 2]] reads back as its samples. *)
Lemma artifact_round_trip_witness :
  wave_write Sample.cfg Sample.path [[1; 2]] Sample.env (init ∅)
    = Ok tt Sample.after_write /\
  exists content,
    fs Sample.after_write !! Sample.path = Some content /\
    wave_read content =
      Some {| wi_nchannels := 1; wi_sampwidth := 2; wi_framerate := 16000;
              wi_samples := [1; 2] |}.
Proof.
  assert (H1 : wave_write Sample.cfg Sample.path [[1; 2]] Sample.env (init ∅)
               = Ok tt Sample.after_write) by reflexivity.
  exact (conj H1 (artifact_round_trip Sample.cfg Sample.path [[1; 2]]
                    Sample.env (init ∅) Sample.after_write H1)).
Defined.

(** C8, as stated, fails.  With a recording duration of 0, two matches in
    the same second and the relay down: the writer is called twice, the
    second call finds the first session's file at its path and replaces its
    content, and the store holds one file, not two. *)
Lemma same_second_sessions_overwrite :
  exists s1 s2 c1 c2,
    run Sample.cfg_zero [Sample.first_session] (init ∅) = Ok tt s1 /\
    run Sample.cfg_zero [Sample.first_session; Sample.second_session] (init ∅)
      = Ok tt s2 /\
    emitted (trace s2) = [[[1]]; [[2]]] /\
    fs s1 !! Sample.path = Some c1 /\
    fs s2 !! Sample.path = Some c2 /\
    c1 <> c2 /\
    size (fs s1) = 1%nat /\ size (fs s2) = 1%nat.
Proof.
  eexists _, _, _, _.
  split; [vm_compute; reflexivity|].
  split; [vm_compute; reflexivity|].
  split; [vm_compute; reflexivity|].
  split; [vm_compute; reflexivity|].
  split; [vm_compute; reflexivity|].
  split; [vm_compute; discriminate|].
  split; vm_compute; reflexivity.
Qed.

(** * Further properties of the code *)

Lemma count_connects_app (t u : list Event) :
  count_connects (t ++ u) = (count_connects t + count_connects u)%nat.
Proof. unfold count_connects. rewrite filter_app, length_app. reflexivity. Qed.

Lemma count_connects_cons (ev : Event) (t : list Event) :
  count_connects (ev :: t)
  = ((if is_connect ev then 1 else 0) + count_connects t)%nat.
Proof.
  unfold count_connects. rewrite filter_cons.
  destruct (is_connect ev); reflexivity.
Qed.

Lemma count_detected_cons (ev : Event) (t : list Event) :
  count_detected (ev :: t)
  = ((if is_detection ev then 1 else 0) + count_detected t)%nat.
Proof.
  unfold count_detected. rewrite filter_cons.
  destruct (is_detection ev); reflexivity.
Qed.

Lemma count_detected_app (t u : list Event) :
  count_detected (t ++ u) = (count_detected t + count_detected u)%nat.
Proof. unfold count_detected. rewrite filter_app, length_app. reflexivity. Qed.

Lemma tail_event_quiet (t : list Event) :
  forallb tail_event t = true -> forallb quiet t = true.
Proof.
  induction t as [|ev t IH]; simpl; [reflexivity|].
  intros [Hev Ht]%andb_prop. rewrite (IH Ht), andb_true_r.
  destruct ev as [[]| | | | | | | |]; try reflexivity; discriminate.
Qed.

Lemma tail_event_no_detection (t : list Event) :
  forallb tail_event t = true -> count_detected t = 0%nat.
Proof.
  unfold count_detected.
  induction t as [|ev t IH]; simpl; [reflexivity|].
  intros [Hev Ht]%andb_prop.
  rewrite filter_cons_False; [exact (IH Ht)|].
  destruct ev as [[]| | | | | | | |]; discriminate.
Qed.

Section Delivery.

Variable cfg : Config.

Ltac exec :=
  unfold send_audio_email, send_attempt, open_read, try_except, bind, ret,
    raise, get, print, emit, may_raise, log; simpl.

(* The first conjunct fixes the trace; the rest are then computed. *)
Ltac close_trace :=
  split; [rewrite <- ?app_assoc; simpl; reflexivity|];
  split; vm_compute; reflexivity.


(** What a delivery adds to the trace, whatever happens: events of the
    delivery only, with at most one connection. *)
Lemma send_attempt_effects (path se pw re : string) (env : Env) (s : St) :
  exists out t,
    send_attempt cfg path se pw re env s = Ok out (log s t) /\
    forallb tail_event t = true /\
    (count_connects t <=? 1)%nat = true.
Proof.
  exec.
  destruct (fs s !! path) as [content|] eqn:Hfile; simpl.
  2:{ eexists _, [_; _]. close_trace. }
  destruct (env_readable env); simpl.
  2:{ eexists _, [_; _]. close_trace. }
  destruct (env_smtp env) as [c1 c2 c3 c4 c5]; simpl.
  destruct c1 as [[]|]; simpl;
    [> eexists _, [_; _; _]; close_trace .. | ].
  destruct c2 as [[]|]; simpl;
    [> eexists _, [_; _; _; _]; close_trace .. | ].
  destruct c3 as [[]|]; simpl;
    [> eexists _, [_; _; _; _; _]; close_trace .. | ].
  destruct (env_as_string_raises env) as [[]|]; simpl;
    [> eexists _, [_; _; _; _; _]; close_trace .. | ].
  destruct c4 as [[]|]; simpl;
    [> eexists _, [_; _; _; _; _; _]; close_trace .. | ].
  destruct c5 as [[]|]; simpl; eexists _, [_; _; _; _; _; _; _]; close_trace.
Qed.








(** X5.  When [server.login] raises, no message is handed to the relay and
    the connection is not closed with [quit]: the trace ends with the login
    and one printed line, and the function returns [False]; for
    [SMTPAuthenticationError] the line is the authentication hint. *)
Theorem rejected_login_sends_nothing
    (path se pw re : string) (env : Env) (s : St) (content : bytes)
    (e : exn) :
  fs s !! path = Some content ->
  env_readable env = true ->
  smtp_connect (env_smtp env) = None ->
  smtp_starttls (env_smtp env) = None ->
  smtp_login (env_smtp env) = Some e ->
  exists m,
    send_audio_email cfg path se pw re env s =
      Ok false
         (log s [FileOpen path;
                 SmtpConnect (SMTP_SERVER cfg) (SMTP_PORT cfg);
                 SmtpStartTls;
                 SmtpLogin se pw;
                 Print m]) /\
    (e = SMTPAuthenticationError -> m = MsgAuthenticationError).
Proof.
  intros Hfile Hread H1 H2 H3. exec. rewrite Hfile. simpl. rewrite Hread.
  simpl. rewrite H1. simpl. rewrite H2. simpl. rewrite H3. simpl.
  destruct e; simpl; eexists; rewrite <- !app_assoc;
    (split; [reflexivity|]); intros; solve [reflexivity | discriminate].
Qed.

(** X6.  When [msg.as_string()] and every SMTP call before it return but
    [server.quit()] raises, the message with the artifact has been handed to
    the relay, yet the delivery counts as failed: the file is kept and the
    not-deleted line is printed. *)
Theorem failed_quit_keeps_a_sent_artifact
    (path : string) (env : Env) (s : St) (content : bytes) (e : exn) :
  fs s !! path = Some content ->
  env_readable env = true ->
  smtp_connect (env_smtp env) = None ->
  smtp_starttls (env_smtp env) = None ->
  smtp_login (env_smtp env) = None ->
  env_as_string_raises env = None ->
  smtp_sendmail (env_smtp env) = None ->
  smtp_quit (env_smtp env) = Some e ->
  exists s' m,
    deliver_and_dispose cfg path env s = Ok tt s' /\
    (SmtpSendmail (SENDER_EMAIL cfg) (RECEIVER_EMAIL cfg) m ∈ trace s') /\
    msg_attachment m = content /\
    (Print (MsgNotDeleted path) ∈ trace s') /\
    fs s' = fs s.
Proof.
  intros Hfile Hread H1 H2 H3 Hmsg H4 H5.
  unfold deliver_and_dispose. exec. rewrite Hfile. simpl. rewrite Hread.
  simpl. rewrite H1. simpl. rewrite H2. simpl. rewrite H3. simpl.
  rewrite Hmsg. simpl. rewrite H4. simpl. rewrite H5. simpl.
  destruct e; simpl; eexists _, _; rewrite <- !app_assoc; simpl;
    (split; [reflexivity|]); simpl;
    (split; [apply elem_of_app; right; do 4 right; left|]);
    (split; [reflexivity|]);
    (split; [apply elem_of_app; right; do 7 right; left | reflexivity]).
Qed.

End Delivery.

Section Sessions.

Variable cfg : Config.

Lemma send_attempt_log_effects
    (path se pw re : string) (env : Env) (s : St)
    (out : DeliveryAttempt) (t : list Event) :
  send_attempt cfg path se pw re env s = Ok out (log s t) ->
  forallb tail_event t = true /\ (count_connects t <= 1)%nat.
Proof.
  intros Hsend.
  destruct (send_attempt_effects cfg path se pw re env s)
    as (out' & t' & Hsend' & Ht & Hc).
  rewrite Hsend in Hsend'. injection Hsend' as _ Hlog.
  apply app_inv_head in Hlog. subst t'. split; [exact Ht | apply Nat.leb_le, Hc].
Qed.

(** What a session with a non-empty buffer does, whatever fails. *)
Lemma complete_session_effects (env : Env) (s : St) :
  audio_frames s <> [] ->
  exists s' t,
    complete_session cfg env s = Ok tt s' /\
    recording s' = recording s /\
    recording_start_time s' = recording_start_time s /\
    audio_frames s' = [] /\
    trace s' = trace s ++ WaveWrite (temp_filename_at cfg (env_now env))
                            (sample_rate cfg) (audio_frames s) :: t /\
    forallb tail_event t = true /\
    (count_connects t <= 1)%nat /\
    (forall other, other <> temp_filename_at cfg (env_now env) ->
                   fs s' !! other = fs s !! other).
Proof.
  intros Hne.
  destruct (write_result cfg (audio_frames s) env) as [e|content] eqn:Hw.
  - rewrite (complete_session_failed cfg env e s Hne Hw).
    eexists _, [_]. split; [reflexivity|]. simpl.
    repeat split; try reflexivity; try (vm_compute; lia).
    intros other Hother. destruct (env_write_residue env); [|reflexivity].
    apply lookup_insert_ne. congruence.
  - destruct (complete_session_written cfg env content s Hne Hw)
      as (out & t & Hsend & _ & ->).
    apply send_attempt_log_effects in Hsend as [Ht Hc].
    assert (Hfs : forall other,
              other <> temp_filename_at cfg (env_now env) ->
              fs (disposed (temp_filename_at cfg (env_now env)) env out
                    (log (written cfg env content s) t)) !! other
              = fs s !! other).
    { intros other Hother. unfold disposed.
      destruct out; [destruct (env_remove_raises env)|..]; simpl;
        rewrite ?lookup_delete_ne by congruence;
        apply lookup_insert_ne; congruence. }
    exists (cleared (disposed (temp_filename_at cfg (env_now env)) env out
                       (log (written cfg env content s) t))),
           ([Print (MsgSaved (temp_filename_at cfg (env_now env)));
             Print MsgAttempting] ++ t ++
            match out with
            | Success =>
                match env_remove_raises env with
                | None =>
                    [Remove (temp_filename_at cfg (env_now env));
                     Print (MsgDeleted (temp_filename_at cfg (env_now env)))]
                | Some e =>
                    [Remove (temp_filename_at cfg (env_now env));
                     Print (MsgSaveOrSendError e)]
                end
            | _ => [Print (MsgNotDeleted (temp_filename_at cfg (env_now env)))]
            end).
    split; [reflexivity|]. unfold disposed.
    split; [destruct out; [destruct (env_remove_raises env)|..];
            reflexivity|].
    split; [destruct out; [destruct (env_remove_raises env)|..];
            reflexivity|].
    split; [reflexivity|].
    split; [destruct out; [destruct (env_remove_raises env)|..]; simpl;
            rewrite <- !app_assoc; reflexivity|].
    split; [rewrite !forallb_app, Ht;
            destruct out; [destruct (env_remove_raises env)|..];
            reflexivity|].
    split; [|exact Hfs].
    rewrite !count_connects_app.
    change (count_connects [_; _]) with 0%nat.
    destruct out; [destruct (env_remove_raises env)|..];
      rewrite ?count_connects_cons; cbn [is_connect];
      change (count_connects []) with 0%nat; lia.
Qed.

(** The closing iteration of a window: the frame is appended, the buffer
    handed over once, and the loop is idle again. *)
Lemma while_recording_closes (tk : Tick) (s : St) (t0 : Q) :
  recording s = true -> recording_start_time s = Some t0 ->
  duration_reached cfg (tk_check_time tk - t0)%Q = true ->
  exists s' t,
    while_recording cfg tk s = Ok tt s' /\
    recording s' = false /\ recording_start_time s' = None /\
    audio_frames s' = [] /\
    trace s' = trace s ++
                 Print MsgDurationReached
                 :: WaveWrite (temp_filename_at cfg (env_now (tk_env tk)))
                      (sample_rate cfg) (audio_frames s ++ [tk_pcm tk])
                 :: t /\
    forallb tail_event t = true /\
    (count_connects t <= 1)%nat /\
    (forall other, other <> temp_filename_at cfg (env_now (tk_env tk)) ->
                   fs s' !! other = fs s !! other).
Proof.
  intros Hr Hs Hd. rewrite while_recording_eq, Hr, Hs, Hd.
  destruct (complete_session_effects (tk_env tk) (closing tk s))
    as (s' & t & -> & Hrec & Hst & Hfr & Htr & Ht & Hc & Hfs).
  { simpl. intros H. apply app_eq_nil in H as [_ H]. discriminate. }
  exists (log s' [Print MsgListening]), (t ++ [Print MsgListening]).
  split; [reflexivity|]. simpl. rewrite Hrec, Hst, Hfr, Htr. simpl.
  repeat split; try reflexivity.
  - rewrite <- !app_assoc. reflexivity.
  - rewrite forallb_app, Ht. reflexivity.
  - rewrite count_connects_app. change (count_connects [_]) with 0%nat. lia.
  - exact Hfs.
Qed.

(** One iteration from a consistent state, in full. *)
Lemma loop_body_effects (tk : Tick) (s : St) :
  consistent s ->
  exists s' t,
    loop_body cfg tk s = Ok tt s' /\
    consistent s' /\
    trace s' = trace s ++ t /\
    (count_connects t <= 1)%nat /\
    (length (emitted t) <= 1)%nat /\
    (count_detected t + (if recording s then 1 else 0)
     = length (emitted t) + (if recording s' then 1 else 0))%nat /\
    (forall other, other <> temp_filename_at cfg (env_now (tk_env tk)) ->
                   fs s' !! other = fs s !! other).
Proof.
  intros Hc.
  assert (Hopen : forall s1 t1,
            recording s1 = true ->
            is_Some (recording_start_time s1) ->
            (count_detected t1 + (if recording s then 1 else 0) = 1)%nat ->
            (count_connects t1 = 0)%nat -> emitted t1 = [] ->
            trace s1 = trace s ++ t1 -> fs s1 = fs s ->
            exists s' t,
              while_recording cfg tk s1 = Ok tt s' /\
              consistent s' /\
              trace s' = trace s ++ t /\
              (count_connects t <= 1)%nat /\
              (length (emitted t) <= 1)%nat /\
              (count_detected t + (if recording s then 1 else 0)
               = length (emitted t) + (if recording s' then 1 else 0))%nat /\
              (forall other,
                 other <> temp_filename_at cfg (env_now (tk_env tk)) ->
                 fs s' !! other = fs s !! other)).
  { intros s1 t1 Hr [t0 Hs] Hd1 Hc1 He1 Htr1 Hfs1.
    destruct (duration_reached cfg (tk_check_time tk - t0)%Q) eqn:Hd.
    - destruct (while_recording_closes tk s1 t0 Hr Hs Hd)
        as (s' & t & -> & Hr' & Hs' & Hfr & Htr & Ht & Hcn & Hfs).
      eexists s', (t1 ++ _). split; [reflexivity|].
      split; [unfold consistent; rewrite Hr'; auto|].
      split; [rewrite Htr, Htr1, <- app_assoc; reflexivity|].
      rewrite count_connects_app, emitted_app, count_detected_app, Hr'.
      rewrite !count_connects_cons, !count_detected_cons.
      cbn [is_connect is_detection emitted].
      rewrite (emitted_quiet t (tail_event_quiet t Ht)),
        (tail_event_no_detection t Ht), He1, Hc1.
      cbn [length app].
      split; [lia|]. split; [lia|]. split; [lia|].
      intros other Hother. rewrite (Hfs other Hother), Hfs1. reflexivity.
    - rewrite (while_recording_buffers cfg tk s1 t0 Hr Hs Hd).
      eexists _, t1. split; [reflexivity|].
      split.
      { unfold consistent, buffered. cbn [recording audio_frames
          recording_start_time]. rewrite Hr. split; [|rewrite Hs; eauto].
        intros H. apply app_eq_nil in H as [_ H]. discriminate. }
      unfold buffered. cbn [recording trace fs]. rewrite Hr, He1, Hc1.
      cbn [length].
      split; [exact Htr1|]. split; [lia|]. split; [lia|]. split; [lia|].
      intros other _. rewrite Hfs1. reflexivity. }
  unfold consistent in Hc. destruct (recording s) eqn:Hr.
  - rewrite loop_body_recording by exact Hr.
    destruct Hc as [_ Hs].
    apply (Hopen s []); auto. symmetry. apply app_nil_r.
  - destruct (Z.eq_dec (tk_keyword_index tk) 0) as [Hk|Hk].
    + rewrite loop_body_arms by assumption.
      apply (Hopen (armed tk s) [Print MsgDetected]); simpl; eauto.
    + rewrite loop_body_idle by assumption.
      exists s, []. split; [reflexivity|].
      split; [unfold consistent; rewrite Hr; exact Hc|].
      rewrite app_nil_r, Hr. split; [reflexivity|].
      change (count_connects []) with 0%nat.
      change (count_detected []) with 0%nat.
      cbn [emitted length]. repeat split; lia.
Qed.

Lemma run_effects (ticks : list Tick) (s : St) :
  consistent s -> balanced s ->
  exists s',
    run cfg ticks s = Ok tt s' /\ consistent s' /\ balanced s' /\
    (forall other,
       Forall (fun tk => other <> temp_filename_at cfg (env_now (tk_env tk)))
              ticks ->
       fs s' !! other = fs s !! other).
Proof.
  revert s. induction ticks as [|tk ticks IH]; intros s Hc Hb.
  - exists s. simpl. unfold ret. auto.
  - destruct (loop_body_effects tk s Hc)
      as (s1 & t & Hbody & Hc1 & Htr & _ & _ & Hcount & Hfs).
    assert (Hb1 : balanced s1).
    { unfold balanced in *.
      rewrite Htr, count_detected_app, emitted_app, length_app. lia. }
    destruct (IH s1 Hc1 Hb1) as (s' & Hrun & Hc' & Hb' & Hfs').
    exists s'. rewrite run_cons, Hbody.
    split; [exact Hrun|]. split; [exact Hc'|]. split; [exact Hb'|].
    intros other Hother. apply Forall_cons in Hother as [Htk Hrest].
    rewrite (Hfs' other Hrest). apply Hfs, Htk.
Qed.

Lemma consistent_init (files : gmap string (list Z)) : consistent (init files).
Proof. unfold consistent. simpl. auto. Qed.

Lemma balanced_init (files : gmap string (list Z)) : balanced (init files).
Proof. reflexivity. Qed.


(** X8.  From the initial state, after any run, the number of detection
    lines printed is the number of buffers handed to the writer, plus one if
    a window is open: each detection leads to exactly one hand-over. *)
Theorem one_window_per_detection
    (files : gmap string (list Z)) (ticks : list Tick) :
  exists s',
    run cfg ticks (init files) = Ok tt s' /\
    count_detected (trace s')
    = (length (emitted (trace s')) + if recording s' then 1 else 0)%nat.
Proof.
  destruct (run_effects ticks (init files) (consistent_init files)
              (balanced_init files)) as (s' & Hrun & _ & Hb & _).
  exists s'. split; [exact Hrun | exact Hb].
Qed.

(** X9.  A run changes no file other than the artifacts of its iterations:
    a path that is not the timestamp-derived path of any iteration holds
    after the run what it held before. *)
Theorem run_touches_only_artifacts
    (files : gmap string (list Z)) (ticks : list Tick) (other : string) :
  Forall (fun tk => other <> temp_filename_at cfg (env_now (tk_env tk)))
         ticks ->
  exists s',
    run cfg ticks (init files) = Ok tt s' /\
    fs s' !! other = files !! other.
Proof.
  intros Hother.
  destruct (run_effects ticks (init files) (consistent_init files)
              (balanced_init files)) as (s' & Hrun & _ & _ & Hfs).
  exists s'. split; [exact Hrun | exact (Hfs other Hother)].
Qed.

(** X10.  In any state a run from the initial state reaches, one more
    iteration hands at most one buffer to the writer and opens at most one
    connection to the relay: there is no retry. *)
Theorem iteration_delivers_at_most_once
    (files : gmap string (list Z)) (ticks : list Tick) (tk : Tick) :
  exists s s' t,
    run cfg ticks (init files) = Ok tt s /\
    loop_body cfg tk s = Ok tt s' /\
    trace s' = trace s ++ t /\
    (length (emitted t) <= 1)%nat /\
    (count_connects t <= 1)%nat.
Proof.
  destruct (run_effects ticks (init files) (consistent_init files)
              (balanced_init files)) as (s & Hrun & Hc & _).
  destruct (loop_body_effects tk s Hc)
    as (s' & t & Hbody & _ & Htr & Hcn & Hem & _).
  exists s, s', t. auto.
Qed.


(** X12.  With a recording duration of zero or less and a clock that does not
    run backwards between lines 123 and 128, a match while idle opens and
    closes the window in the same iteration: the buffer handed over holds the
    matching frame alone. *)
Theorem nonpositive_duration_closes_at_once (tk : Tick) (s : St) :
  RECORDING_DURATION_SECONDS cfg <= 0 ->
  (tk_trigger_time tk <= tk_check_time tk)%Q ->
  recording s = false ->
  tk_keyword_index tk = 0 ->
  exists s',
    loop_body cfg tk s = Ok tt s' /\
    emitted (trace s') = emitted (trace s) ++ [[tk_pcm tk]] /\
    recording s' = false /\ audio_frames s' = [].
Proof.
  intros Hd Hclock Hr Hk.
  assert (Hreached : duration_reached cfg
                       (tk_check_time tk - tk_trigger_time tk)%Q = true).
  { unfold duration_reached. apply Qle_bool_iff.
    apply Qle_trans with (y := 0%Q).
    - change 0%Q with (inject_Z 0). rewrite <- Zle_Qle. exact Hd.
    - apply (proj1 (Qle_minus_iff _ _)) in Hclock. exact Hclock. }
  rewrite loop_body_arms by assumption.
  destruct (while_recording_closes tk (armed tk s) (tk_trigger_time tk)
              eq_refl eq_refl Hreached)
    as (s' & t & -> & Hr' & _ & Hfr & Htr & Ht & _).
  exists s'. split; [reflexivity|]. rewrite Htr, emitted_app. simpl.
  rewrite emitted_app, (emitted_quiet t (tail_event_quiet t Ht)). simpl.
  rewrite app_nil_r. auto.
Qed.

(** X13.  While a window is open and the duration test fails, a run appends
    the frames to the buffer in arrival order and does nothing else: no
    print, no file, no start time changed, whatever the detector answers. *)
Theorem open_window_accumulates (ticks : list Tick) (s : St) (t0 : Q) :
  recording s = true ->
  recording_start_time s = Some t0 ->
  Forall (fun tk => duration_reached cfg (tk_check_time tk - t0)%Q = false)
         ticks ->
  run cfg ticks s =
    Ok tt {| recording := true;
             audio_frames := audio_frames s ++ map tk_pcm ticks;
             recording_start_time := Some t0;
             fs := fs s; trace := trace s |}.
Proof.
  intros Hr Hs Hd. rewrite (run_buffers cfg ticks s t0 Hr Hs Hd).
  unfold buffered. rewrite Hr, Hs. reflexivity.
Qed.
End Sessions.

(** ** File names *)

Lemma append_assoc (a b c : string) : (a +:+ b) +:+ c = a +:+ (b +:+ c).
Proof.
  induction a as [|x a IH]; [reflexivity|].
  change (String x ((a +:+ b) +:+ c) = String x (a +:+ (b +:+ c))).
  rewrite IH. reflexivity.
Qed.

Lemma path_join_prefix (a : string) :
  exists prefix,
    (forall b, path_join a b = prefix +:+ b) /\
    (prefix = "" \/ exists p, prefix = p +:+ "/").
Proof.
  destruct a as [|c a].
  - exists "". split; [reflexivity | left; reflexivity].
  - unfold path_join. destruct (ends_with_sep (String c a)) eqn:He.
    + exists (String c a). split; [reflexivity|]. right.
      revert c He. induction a as [|c' a IH]; intros c He.
      * simpl in He. unfold is_sep in He. apply Ascii.eqb_eq in He.
        subst c. exists "". reflexivity.
      * destruct (IH c' He) as [p Hp]. exists (String c p).
        rewrite Hp. reflexivity.
    + exists (String c a +:+ "/"). split.
      * intros b. rewrite append_assoc. reflexivity.
      * right. eauto.
Qed.

Lemma app_inv_prefix (p x y : string) : p +:+ x = p +:+ y -> x = y.
Proof.
  induction p as [|c p IH]; simpl; [auto|]. intros [= H]. auto.
Qed.

Lemma digit_inj (n m : N) : digit n = digit m -> (n mod 10 = m mod 10)%N.
Proof.
  unfold digit. intros H. apply (f_equal Ascii.N_of_ascii) in H.
  pose proof (N.mod_upper_bound n 10 ltac:(discriminate)).
  pose proof (N.mod_upper_bound m 10 ltac:(discriminate)).
  rewrite !Ascii.N_ascii_embedding in H by lia. lia.
Qed.

Lemma digit_not_sep (n : N) : is_sep (digit n) = false.
Proof.
  unfold is_sep, digit. apply Ascii.eqb_neq. intros H.
  apply (f_equal Ascii.N_of_ascii) in H.
  pose proof (N.mod_upper_bound n 10 ltac:(discriminate)).
  rewrite Ascii.N_ascii_embedding in H by lia.
  change (Ascii.N_of_ascii "/") with 47%N in H.
  set (k := (n mod 10)%N) in *. lia.
Qed.

Lemma digits2 (n : N) :
  (n < 100 -> n = 10 * ((n / 10) mod 10) + n mod 10)%N.
Proof.
  intros Hn.
  assert (Hq : (n / 10 < 10)%N) by (apply N.Div0.div_lt_upper_bound; lia).
  rewrite (N.mod_small (n / 10) 10 Hq). apply N.Div0.div_mod.
Qed.

Lemma digits4 (n : N) :
  (n < 10000 ->
   n = 1000 * ((n / 1000) mod 10) + 100 * ((n / 100) mod 10)
       + 10 * ((n / 10) mod 10) + n mod 10)%N.
Proof.
  intros Hn.
  assert (Hq : (n / 1000 < 10)%N) by (apply N.Div0.div_lt_upper_bound; lia).
  rewrite (N.mod_small (n / 1000) 10 Hq).
  pose proof (N.Div0.div_mod n 10) as E0.
  pose proof (N.Div0.div_mod (n / 10) 10) as E1.
  pose proof (N.Div0.div_mod (n / 100) 10) as E2.
  rewrite N.Div0.div_div in E1. rewrite N.Div0.div_div in E2.
  change (10 * 10)%N with 100%N in E1. change (100 * 10)%N with 1000%N in E2.
  set (r0 := (n mod 10)%N) in *. set (r1 := ((n / 10) mod 10)%N) in *.
  set (r2 := ((n / 100) mod 10)%N) in *.
  set (q1 := (n / 10)%N) in *. set (q2 := (n / 100)%N) in *.
  set (q3 := (n / 1000)%N) in *.
  lia.
Qed.

Lemma dec2_inj (n m : N) :
  (n < 100)%N -> (m < 100)%N -> dec2 n = dec2 m -> n = m.
Proof.
  unfold dec2. intros Hn Hm [= H1 H0].
  apply digit_inj in H1, H0.
  rewrite (digits2 n Hn), (digits2 m Hm), H1, H0. reflexivity.
Qed.

Lemma dec4_inj (n m : N) :
  (n < 10000)%N -> (m < 10000)%N -> dec4 n = dec4 m -> n = m.
Proof.
  unfold dec4, dec2. intros Hn Hm [= H3 H2 H1 H0].
  apply digit_inj in H3, H2, H1, H0.
  rewrite (digits4 n Hn), (digits4 m Hm), H3, H2, H1, H0. reflexivity.
Qed.

Lemma strftime_inj (d d' : DateTime) :
  printable d -> printable d' -> strftime d = strftime d' -> same_second d d'.
Proof.
  intros (Hy & Hmo & Hd & Hh & Hmi & Hs) (Hy' & Hmo' & Hd' & Hh' & Hmi' & Hs').
  unfold strftime, dec4, dec2. cbn [String.append].
  intros [= Y3 Y2 Y1 Y0 M1 M0 D1 D0 H1 H0 I1 I0 S1 S0].
  unfold same_second.
  split; [apply dec4_inj; [lia | lia | unfold dec4, dec2; congruence]|].
  repeat split; apply dec2_inj; try lia; unfold dec2; congruence.
Qed.

Section Names.

Variable cfg : Config.

(** X14.  For dates and times that print with four-digit years, two sessions
    get the same artifact path exactly when they complete within the same
    second. *)
Theorem same_file_name_iff_same_second (d d' : DateTime) :
  printable d -> printable d' ->
  (temp_filename_at cfg d = temp_filename_at cfg d' <-> same_second d d').
Proof.
  intros Hd Hd'. unfold temp_filename_at.
  destruct (path_join_prefix (TEMP_AUDIO_DIR cfg)) as (prefix & Hjoin & _).
  rewrite !Hjoin. split.
  - intros H. apply app_inv_prefix in H.
    apply (app_inv_prefix "recording_") in H.
    apply strftime_inj; [exact Hd | exact Hd' |].
    unfold strftime, dec4, dec2 in *. cbn [String.append] in H.
    injection H as Y3 Y2 Y1 Y0 M1 M0 D1 D0 H1 H0 I1 I0 S1 S0.
    cbn [String.append]. congruence.
  - intros (Hy & Hmo & Hda & Hh & Hmi & Hs). unfold strftime.
    rewrite Hy, Hmo, Hda, Hh, Hmi, Hs. reflexivity.
Qed.

Lemma has_sep_app (a b : string) :
  has_sep (a +:+ b) = has_sep a || has_sep b.
Proof.
  induction a as [|c a IH]; [reflexivity|].
  change (has_sep (String c (a +:+ b)) = has_sep (String c a) || has_sep b).
  cbn [has_sep]. rewrite IH, orb_assoc. reflexivity.
Qed.

Lemma basename_no_sep (b : string) : has_sep b = false -> basename b = b.
Proof.
  destruct b as [|c b]; [reflexivity|]. intros H. unfold basename.
  rewrite H. reflexivity.
Qed.

Lemma basename_after_sep (p b : string) :
  has_sep b = false -> basename ((p +:+ "/") +:+ b) = b.
Proof.
  intros Hb. induction p as [|c p IH].
  - change (basename (String "/" b) = b). cbn [basename has_sep is_sep].
    change (Ascii.eqb "/" "/") with true. cbn [orb].
    apply basename_no_sep, Hb.
  - change (basename (String c ((p +:+ "/") +:+ b)) = b).
    cbn [basename]. cbn [has_sep].
    rewrite !has_sep_app. cbn [has_sep is_sep].
    change (Ascii.eqb "/" "/") with true.
    rewrite orb_true_r, orb_true_l, orb_true_r. exact IH.
Qed.

Lemma recording_name_no_sep (d : DateTime) :
  has_sep ("recording_" +:+ strftime d +:+ ".wav") = false.
Proof.
  unfold strftime, dec4, dec2. rewrite !has_sep_app. cbn [has_sep].
  rewrite !digit_not_sep. reflexivity.
Qed.

(** X15.  Whatever [TEMP_AUDIO_DIR] is, the base name of the artifact's path,
    which names the attachment and ends the subject line, is
    [recording_<timestamp>.wav]. *)
Theorem attachment_is_named_after_the_recording (d : DateTime) :
  basename (temp_filename_at cfg d) = "recording_" +:+ strftime d +:+ ".wav".
Proof.
  unfold temp_filename_at.
  destruct (path_join_prefix (TEMP_AUDIO_DIR cfg))
    as (prefix & Hjoin & [-> | [p ->]]); rewrite Hjoin.
  - apply basename_no_sep, recording_name_no_sep.
  - apply basename_after_sep, recording_name_no_sep.
Qed.

End Names.

(** ** The container *)

Lemma pack_h_inr (x : Z) (b : bytes) :
  pack_h x = inr b -> int16 x /\ length b = 2%nat.
Proof.
  unfold pack_h, int16.
  destruct (-32768 <=? x) eqn:Hlo, (x <=? 32767) eqn:Hhi; simpl;
    try discriminate.
  intros [= <-]. split; [lia | reflexivity].
Qed.

Lemma pack_h_inl (x : Z) (e : exn) :
  pack_h x = inl e -> e = struct_error /\ ~ int16 x.
Proof.
  unfold pack_h, int16.
  destruct (-32768 <=? x) eqn:Hlo, (x <=? 32767) eqn:Hhi; simpl;
    try discriminate; intros [= <-]; split; try reflexivity; lia.
Qed.

Lemma pack_frame_inr (frame : Frame) (b : bytes) :
  pack_frame frame = inr b ->
  Forall int16 frame /\ length b = (2 * length frame)%nat.
Proof.
  revert b. induction frame as [|x frame IH]; intros b; simpl.
  - intros [= <-]. split; [constructor | reflexivity].
  - intros H. apply ebind_inr in H as (bx & Hx & H).
    apply ebind_inr in H as (br & Hr & [= <-]).
    apply pack_h_inr in Hx as [Hx Hlx]. apply IH in Hr as [Hr Hlr].
    split; [constructor; assumption|]. rewrite length_app. lia.
Qed.

Lemma pack_frame_inl (frame : Frame) (e : exn) :
  pack_frame frame = inl e -> e = struct_error /\ ~ Forall int16 frame.
Proof.
  revert e. induction frame as [|x frame IH]; intros e; simpl; [discriminate|].
  destruct (pack_h x) as [ex|bx] eqn:Hx; simpl.
  - intros [= <-]. apply pack_h_inl in Hx as [-> Hx].
    split; [reflexivity|]. intros H. apply Forall_cons in H as [H _]. auto.
  - destruct (pack_frame frame) as [er|br]; simpl; [|discriminate].
    intros [= <-]. destruct (IH er eq_refl) as [-> Hr].
    split; [reflexivity|]. intros H. apply Forall_cons in H as [_ H]. auto.
Qed.

Lemma join_frames_inr (frames : list Frame) (b : bytes) :
  join_frames frames = inr b ->
  Forall (Forall int16) frames /\
  length b = (2 * length (concat frames))%nat.
Proof.
  revert b. induction frames as [|frame frames IH]; intros b; simpl.
  - intros [= <-]. split; [constructor | reflexivity].
  - intros H. apply ebind_inr in H as (bf & Hf & H).
    apply ebind_inr in H as (br & Hr & [= <-]).
    apply pack_frame_inr in Hf as [Hf Hlf]. apply IH in Hr as [Hr Hlr].
    split; [constructor; assumption|]. rewrite !length_app. lia.
Qed.

(** X16.  Packing the buffer (line 146) succeeds, with two bytes per sample,
    when every sample fits sixteen bits signed, and raises [struct.error]
    otherwise. *)
Theorem packing_fails_exactly_on_wide_samples (frames : list Frame) :
  (Forall (Forall int16) frames ->
   exists data, join_frames frames = inr data /\
                length data = (2 * length (concat frames))%nat) /\
  (~ Forall (Forall int16) frames -> join_frames frames = inl struct_error).
Proof.
  split; [apply join_frames_fits|].
  induction frames as [|frame frames IH]; intros Hbad.
  - exfalso. apply Hbad. constructor.
  - simpl. destruct (pack_frame frame) as [e|b] eqn:Hf; simpl.
    + apply pack_frame_inl in Hf as [-> _]. reflexivity.
    + apply pack_frame_inr in Hf as [Hf _].
      rewrite IH; [reflexivity|]. intros H. apply Hbad. constructor; assumption.
Qed.

(** ** Start-up and shutdown *)

Section Lifecycle.

Variable cfg : Config.

(** X17.  When start-up succeeds, a script interrupted while waiting for a
    frame prints the stopping line and then stops and deletes the recorder
    and deletes the detector, once each and in that order, after any number
    of iterations; nothing is written after the interrupt, so the buffer of
    an open window is dropped. *)
Theorem interrupted_script_cleans_up
    (st : Startup) (files : gmap string (list Z)) (ticks : list Tick) :
  start_porcupine st = Created ->
  start_recorder st = None ->
  start_recording st = None ->
  exists s,
    run cfg ticks (init files) = Ok tt s /\
    script cfg st files ticks =
      ([Say LineInitializing; PorcupineCreate; RecorderCreate; RecorderStart;
        Say LineListening; Loop (trace s); Say LineStopping;
        RecorderStop; RecorderDelete; PorcupineDelete; Say LineCleanUp],
       fs s).
Proof.
  intros Hp Hr Hs.
  destruct (run_total cfg ticks (init files) (wf_init files))
    as (s & Hrun & _).
  exists s. split; [exact Hrun|].
  unfold script. rewrite Hp, Hr, Hs, Hrun. reflexivity.
Qed.

(** X18.  [porcupine.delete()] is called exactly when all of start-up
    succeeded: a detector created before the recorder failed to start is
    never deleted. *)
Theorem detector_released_iff_loop_entered
    (st : Startup) (files : gmap string (list Z)) (ticks : list Tick) :
  PorcupineDelete ∈ (script cfg st files ticks).1 <->
  (start_porcupine st = Created /\ start_recorder st = None /\
   start_recording st = None).
Proof.
  rewrite list_elem_of_In. unfold script.
  destruct (start_porcupine st); cbn [fst In];
    [|split; [intros H | intros (H & _)]; intuition discriminate ..].
  destruct (start_recorder st) as [e1|]; cbn [fst In];
    [split; [intros H | intros (_ & H & _)]; intuition discriminate|].
  destruct (start_recording st) as [e2|]; cbn [fst In];
    [split; [intros H | intros (_ & _ & H)]; intuition discriminate|].
  unfold clean_up.
  destruct (run cfg ticks (init files)) as [[] s|e s]; cbn [fst app In];
    (split; [intros _; repeat split
            | intros _; repeat first [left; reflexivity | right]]).
Qed.

(** X19.  When the detector or the recorder fails to start, the script ends
    with [exit()] without entering the loop: the file store is untouched and
    the recorder is never stopped. *)
Theorem failed_start_up_never_enters_the_loop
    (st : Startup) (files : gmap string (list Z)) (ticks : list Tick) :
  start_porcupine st <> Created \/ is_Some (start_recorder st)
  \/ is_Some (start_recording st) ->
  (script cfg st files ticks).2 = files /\
  (forall events, Loop events ∉ (script cfg st files ticks).1) /\
  (RecorderStop ∉ (script cfg st files ticks).1) /\
  last (script cfg st files ticks).1 = Some Exit.
Proof.
  intros Hfail. unfold script.
  assert (Hnot : forall (x : Step) l, ~ In x l -> x ∉ l).
  { intros x l H Hin. apply H. apply list_elem_of_In in Hin. exact Hin. }
  destruct (start_porcupine st);
    [|cbn [fst snd];
      (split; [reflexivity|]); (split; [intros events|]);
      (split || idtac); try reflexivity;
      apply Hnot; cbn [In]; intuition discriminate ..].
  destruct (start_recorder st) as [e1|];
    [cbn [fst snd];
      (split; [reflexivity|]); (split; [intros events|]);
      (split || idtac); try reflexivity;
      apply Hnot; cbn [In]; intuition discriminate|].
  destruct (start_recording st) as [e2|];
    [cbn [fst snd];
      (split; [reflexivity|]); (split; [intros events|]);
      (split || idtac); try reflexivity;
      apply Hnot; cbn [In]; intuition discriminate|].
  exfalso. destruct Hfail as [H | [[x H] | [x H]]];
    [apply H; reflexivity | discriminate | discriminate].
Qed.

End Lifecycle.

(** ** The further properties at concrete inputs *)


(** Sending through a relay that rejects the credentials. *)
Lemma rejected_login_sends_nothing_witness :
  fs Scenario.stored !! Sample.path = Some Sample.content /\
  env_readable (Sample.env_ok Scenario.relay_rejects 0) = true /\
  smtp_connect Scenario.relay_rejects = None /\
  smtp_starttls Scenario.relay_rejects = None /\
  smtp_login Scenario.relay_rejects = Some SMTPAuthenticationError /\
  exists m,
    send_audio_email Sample.cfg Sample.path "from" "secret" "to"
      (Sample.env_ok Scenario.relay_rejects 0) Scenario.stored =
      Ok false
         (log Scenario.stored
            [FileOpen Sample.path;
             SmtpConnect (SMTP_SERVER Sample.cfg) (SMTP_PORT Sample.cfg);
             SmtpStartTls;
             SmtpLogin "from" "secret";
             Print m]) /\
    (SMTPAuthenticationError = SMTPAuthenticationError ->
     m = MsgAuthenticationError).
Proof.
  assert (H1 : fs Scenario.stored !! Sample.path = Some Sample.content)
    by (vm_compute; reflexivity).
  assert (H2 : env_readable (Sample.env_ok Scenario.relay_rejects 0) = true)
    by reflexivity.
  assert (H3 : smtp_connect Scenario.relay_rejects = None) by reflexivity.
  assert (H4 : smtp_starttls Scenario.relay_rejects = None) by reflexivity.
  assert (H5 : smtp_login Scenario.relay_rejects
               = Some SMTPAuthenticationError) by reflexivity.
  exact (conj H1 (conj H2 (conj H3 (conj H4 (conj H5
    (rejected_login_sends_nothing Sample.cfg Sample.path "from" "secret" "to"
       (Sample.env_ok Scenario.relay_rejects 0) Scenario.stored
       Sample.content SMTPAuthenticationError H1 H2 H3 H4 H5)))))).
Defined.

(** Delivering through a relay that drops the connection on quit. *)
Lemma failed_quit_keeps_a_sent_artifact_witness :
  fs Scenario.stored !! Sample.path = Some Sample.content /\
  env_readable (Sample.env_ok Scenario.relay_drops_on_quit 0) = true /\
  smtp_connect Scenario.relay_drops_on_quit = None /\
  smtp_starttls Scenario.relay_drops_on_quit = None /\
  smtp_login Scenario.relay_drops_on_quit = None /\
  env_as_string_raises (Sample.env_ok Scenario.relay_drops_on_quit 0) = None /\
  smtp_sendmail Scenario.relay_drops_on_quit = None /\
  smtp_quit Scenario.relay_drops_on_quit = Some SMTPServerDisconnected /\
  exists s' m,
    deliver_and_dispose Sample.cfg Sample.path
      (Sample.env_ok Scenario.relay_drops_on_quit 0) Scenario.stored
      = Ok tt s' /\
    (SmtpSendmail (SENDER_EMAIL Sample.cfg) (RECEIVER_EMAIL Sample.cfg) m
       ∈ trace s') /\
    msg_attachment m = Sample.content /\
    (Print (MsgNotDeleted Sample.path) ∈ trace s') /\
    fs s' = fs Scenario.stored.
Proof.
  assert (H1 : fs Scenario.stored !! Sample.path = Some Sample.content)
    by (vm_compute; reflexivity).
  assert (H2 : env_readable (Sample.env_ok Scenario.relay_drops_on_quit 0)
               = true) by reflexivity.
  assert (H3 : smtp_connect Scenario.relay_drops_on_quit = None)
    by reflexivity.
  assert (H4 : smtp_starttls Scenario.relay_drops_on_quit = None)
    by reflexivity.
  assert (H5 : smtp_login Scenario.relay_drops_on_quit = None) by reflexivity.
  assert (Hm : env_as_string_raises
                 (Sample.env_ok Scenario.relay_drops_on_quit 0) = None)
    by reflexivity.
  assert (H6 : smtp_sendmail Scenario.relay_drops_on_quit = None)
    by reflexivity.
  assert (H7 : smtp_quit Scenario.relay_drops_on_quit
               = Some SMTPServerDisconnected) by reflexivity.
  exact (conj H1 (conj H2 (conj H3 (conj H4 (conj H5 (conj Hm (conj H6 (conj H7
    (failed_quit_keeps_a_sent_artifact Sample.cfg Sample.path
       (Sample.env_ok Scenario.relay_drops_on_quit 0) Scenario.stored
       Sample.content SMTPServerDisconnected
       H1 H2 H3 H4 H5 Hm H6 H7))))))))).
Defined.

(** A whole window next to a file of another name. *)
Lemma run_touches_only_artifacts_witness :
  Forall (fun tk => "notes.txt"
                    <> temp_filename_at Sample.cfg (env_now (tk_env tk)))
         (Sample.pre ++ Sample.win ++ [Sample.last]) /\
  exists s',
    run Sample.cfg (Sample.pre ++ Sample.win ++ [Sample.last])
        (init {[ "notes.txt" := [1; 2; 3] ]}) = Ok tt s' /\
    fs s' !! "notes.txt"
    = ({[ "notes.txt" := [1; 2; 3] ]} : gmap string (list Z)) !! "notes.txt".
Proof.
  assert (H1 : Forall (fun tk => "notes.txt"
                    <> temp_filename_at Sample.cfg (env_now (tk_env tk)))
         (Sample.pre ++ Sample.win ++ [Sample.last]))
    by (repeat constructor; discriminate).
  exact (conj H1
    (run_touches_only_artifacts Sample.cfg {[ "notes.txt" := [1; 2; 3] ]}
       (Sample.pre ++ Sample.win ++ [Sample.last]) "notes.txt" H1)).
Defined.


(** A match on the first frame with a duration of 0. *)
Lemma nonpositive_duration_closes_at_once_witness :
  RECORDING_DURATION_SECONDS Sample.cfg_zero <= 0 /\
  (tk_trigger_time Sample.first_session
   <= tk_check_time Sample.first_session)%Q /\
  recording (init ∅) = false /\
  tk_keyword_index Sample.first_session = 0 /\
  exists s',
    loop_body Sample.cfg_zero Sample.first_session (init ∅) = Ok tt s' /\
    emitted (trace s') = emitted (trace (init ∅)) ++ [[[1]]] /\
    recording s' = false /\ audio_frames s' = [].
Proof.
  assert (H1 : RECORDING_DURATION_SECONDS Sample.cfg_zero <= 0)
    by (simpl; lia).
  assert (H2 : (tk_trigger_time Sample.first_session
                <= tk_check_time Sample.first_session)%Q)
    by (unfold Qle; simpl; lia).
  assert (H3 : recording (init ∅) = false) by reflexivity.
  assert (H4 : tk_keyword_index Sample.first_session = 0) by reflexivity.
  exact (conj H1 (conj H2 (conj H3 (conj H4
    (nonpositive_duration_closes_at_once Sample.cfg_zero Sample.first_session
       (init ∅) H1 H2 H3 H4))))).
Defined.

(** Two frames inside a window of fifteen seconds. *)
Lemma open_window_accumulates_witness :
  recording Sample.mid_window = true /\
  recording_start_time Sample.mid_window = Some 0%Q /\
  Forall (fun tk => duration_reached Sample.cfg (tk_check_time tk - 0)%Q
                    = false) Scenario.inside /\
  run Sample.cfg Scenario.inside Sample.mid_window =
    Ok tt {| recording := true;
             audio_frames := [[1; 2]; [5; 5]; [6; 6]];
             recording_start_time := Some 0%Q;
             fs := fs Sample.mid_window; trace := trace Sample.mid_window |}.
Proof.
  assert (H1 : recording Sample.mid_window = true) by reflexivity.
  assert (H2 : recording_start_time Sample.mid_window = Some 0%Q)
    by reflexivity.
  assert (H3 : Forall (fun tk => duration_reached Sample.cfg
                                   (tk_check_time tk - 0)%Q = false)
                      Scenario.inside) by (repeat constructor).
  exact (conj H1 (conj H2 (conj H3
    (open_window_accumulates Sample.cfg Scenario.inside Sample.mid_window
       0%Q H1 H2 H3)))).
Defined.

(** Two instants of the same second. *)
Lemma same_file_name_iff_same_second_witness :
  printable (Sample.at_second 100) /\
  printable (Sample.at_second 900) /\
  (temp_filename_at Sample.cfg (Sample.at_second 100)
   = temp_filename_at Sample.cfg (Sample.at_second 900)
   <-> same_second (Sample.at_second 100) (Sample.at_second 900)).
Proof.
  assert (H1 : printable (Sample.at_second 100))
    by (unfold printable; simpl; lia).
  assert (H2 : printable (Sample.at_second 900))
    by (unfold printable; simpl; lia).
  exact (conj H1 (conj H2
    (same_file_name_iff_same_second Sample.cfg (Sample.at_second 100)
       (Sample.at_second 900) H1 H2))).
Defined.

(** An interrupt after two frames. *)
Lemma interrupted_script_cleans_up_witness :
  start_porcupine Scenario.all_up = Created /\
  start_recorder Scenario.all_up = None /\
  start_recording Scenario.all_up = None /\
  exists s,
    run Sample.cfg Scenario.inside (init ∅) = Ok tt s /\
    script Sample.cfg Scenario.all_up ∅ Scenario.inside =
      ([Say LineInitializing; PorcupineCreate; RecorderCreate; RecorderStart;
        Say LineListening; Loop (trace s); Say LineStopping;
        RecorderStop; RecorderDelete; PorcupineDelete; Say LineCleanUp],
       fs s).
Proof.
  assert (H1 : start_porcupine Scenario.all_up = Created) by reflexivity.
  assert (H2 : start_recorder Scenario.all_up = None) by reflexivity.
  assert (H3 : start_recording Scenario.all_up = None) by reflexivity.
  exact (conj H1 (conj H2 (conj H3
    (interrupted_script_cleans_up Sample.cfg Scenario.all_up ∅
       Scenario.inside H1 H2 H3)))).
Defined.

(** A recorder that cannot be constructed. *)
Lemma failed_start_up_never_enters_the_loop_witness :
  (start_porcupine Scenario.no_microphone <> Created
   \/ is_Some (start_recorder Scenario.no_microphone)
   \/ is_Some (start_recording Scenario.no_microphone)) /\
  (script Sample.cfg Scenario.no_microphone ∅ Scenario.inside).2 = ∅ /\
  (forall events,
     Loop events ∉ (script Sample.cfg Scenario.no_microphone ∅
                      Scenario.inside).1) /\
  (RecorderStop ∉ (script Sample.cfg Scenario.no_microphone ∅
                     Scenario.inside).1) /\
  last (script Sample.cfg Scenario.no_microphone ∅ Scenario.inside).1
  = Some Exit.
Proof.
  assert (H1 : start_porcupine Scenario.no_microphone <> Created
               \/ is_Some (start_recorder Scenario.no_microphone)
               \/ is_Some (start_recording Scenario.no_microphone))
    by (right; left; eexists; reflexivity).
  exact (conj H1
    (failed_start_up_never_enters_the_loop Sample.cfg Scenario.no_microphone
       ∅ Scenario.inside H1)).
Defined.
